(** * albumentations.pytorch: parameter samplers of the dual transforms

    A shallow embedding of the parameter-generation code of
    [albumentations/pytorch/augmentations/dual/transforms.py] and of the
    [on_float_image] decorator of [albumentations/pytorch/augmentations/utils.py],
    followed by the properties proved about them.

    Conventions of the embedding.
    - Python [int] is [Z]; [//] is [Z.div] (both round towards minus infinity),
      [int(x)] of a float truncates towards zero.
    - Python [float] and torch floating tensors are idealised as exact rationals
      ([Q]); [round] is round-half-to-even, as in Python 3 and [torch.round].
    - A raised exception is the left injection of a sum; code that draws random
      numbers threads the state of the [random] module explicitly.
    - numpy and torch arrays of rank two are lists of rows; [reshape(-1)] is
      [concat] (row-major order). *)

From Stdlib Require Import ZArith List Bool Lia Permutation QArith Qround Lqa.
From Stdlib Require String Ascii.
Import ListNotations.
Local Open Scope Z_scope.

(** ** Python runtime: exceptions, the state-and-exception monad, random sources *)

(** The exceptions the modelled code can raise. The three [ValueError]s raised
    by the transforms themselves are kept apart from the one raised inside
    [random.randint] on an empty range. *)
Inductive exn : Type :=
| CropLargerThanImage (height width mask_height mask_width : Z)
    (* ValueError("Crop size ({},{}) is larger than image ({},{})") *)
| GridNotPositive (n m : Z)
    (* ValueError("Grid's values must be positive. Current grid [%s, %s]") *)
| GridCellTooSmall
    (* ValueError("Incorrect size cell of grid. Just shuffle pixels of image") *)
| EmptyRange
    (* ValueError raised by random.randrange on an empty range *)
| IndexError
    (* random.choice of an empty sequence *)
| ZeroDivisionError
| MathDomainError.
    (* ValueError: math domain error, from math.log *)


(** Computations over a state [S] that may raise. *)
Definition M (S A : Type) : Type := S -> (exn + A) * S.

Definition ret {S A} (a : A) : M S A := fun s => (inr a, s).

Definition raise {S A} (e : exn) : M S A := fun s => (inl e, s).

Definition bind {S A B} (c : M S A) (k : A -> M S B) : M S B :=
  fun s => match c s with
           | (inl e, s') => (inl e, s')
           | (inr a, s') => k a s'
           end.

Declare Scope py_scope.
Delimit Scope py_scope with py.
Notation "x <- c ;; k" := (bind c (fun x => k))
  (at level 61, c at next level, right associativity) : py_scope.
Notation "' pat <- c ;; k" := (bind c (fun x => match x with pat => k end))
  (at level 61, pat pattern, c at next level, right associativity) : py_scope.

(** The random sources the transforms draw from.
    - [py_state] is the hidden state of Python's [random] module and
      [randbelow] its primitive [Random._randbelow(n)], from which
      [random.randint] and [random.choice] are derived as in CPython.
    - [np_state] is a [numpy.random.RandomState]; [RandomState seed] seeds
      one. [shuffled_indices s k] is the index array that
      [RandomState.permutation] shuffles for an array of [k] rows. *)
Class Randomness : Type := {
  py_state : Type;
  randbelow : Z -> py_state -> Z * py_state;
  np_state : Type;
  RandomState : Z -> np_state;
  shuffled_indices : np_state -> nat -> list nat * np_state
}.

(** What the generators guarantee, whatever their algorithm. *)
Class RandomnessLaws (R : Randomness) : Prop := {
  randbelow_range : forall n g, 0 < n -> 0 <= fst (randbelow n g) < n;
  shuffled_indices_perm :
    forall s k, Permutation (seq 0 k) (fst (shuffled_indices s k))
}.

Section PythonRandom.
Context {R : Randomness}.

(** [random.randint(a, b)]: [randrange(a, b + 1)]. *)
Definition randint (a b : Z) : M py_state Z :=
  fun g =>
    if b + 1 - a <=? 0 then (inl EmptyRange, g)
    else let (r, g') := randbelow (b + 1 - a) g in (inr (a + r), g').

(** [random.choice(seq)]: [seq[randbelow(len(seq))]]. *)
Definition choice {A} (seq : list A) : M py_state A :=
  fun g =>
    match seq with
    | [] => (inl IndexError, g)
    | d :: _ =>
        let (r, g') := randbelow (Z.of_nat (length seq)) g in
        (inr (nth (Z.to_nat r) seq d), g')
    end.

(** [random_state.permutation(x)] for an array [x] of rank two or more:
    the rows of [x] taken in the order of a shuffled [arange(len(x))]. *)
Definition permutation {A} (s : np_state) (x : list A) : list A * np_state :=
  let (idx, s') := shuffled_indices s (length x) in
  (match x with
   | [] => []
   | d :: _ => map (fun i => nth i x d) idx
   end, s').

End PythonRandom.

(** ** [PadIfNeededTorch] *)
Module PadIfNeededTorch.

Record config : Type := { min_height : Z; min_width : Z }.




End PadIfNeededTorch.

(** ** Floats as rationals: rounding and truncation *)

(** [a < b] on rationals, as a boolean. *)
Definition Qltb (a b : Q) : bool := negb (Qle_bool b a).

(** Python's [round(x)] and [torch.round]: the nearest integer, ties to even. *)
Definition py_round (x : Q) : Z :=
  let f := Qfloor x in
  match Qcompare (x - inject_Z f) (1 # 2) with
  | Lt => f
  | Gt => f + 1
  | Eq => if Z.even f then f else f + 1
  end.

(** [int(x)] of a float, and the float-to-integer cast of torch: towards zero. *)
Definition Qtrunc (x : Q) : Z :=
  if Qle_bool 0 x then Qfloor x else Qceiling x.

(** Python's [min] and [max] of a pair. *)
Definition min2 (p : Q * Q) : Q := if Qltb (snd p) (fst p) then snd p else fst p.
Definition max2 (p : Q * Q) : Q := if Qltb (fst p) (snd p) then snd p else fst p.

(** ** [augmentations/utils.py] *)
Module Utils.

Inductive dtype : Type := uint8 | float32 | float64.

Definition dtype_eqb (a b : dtype) : bool :=
  match a, b with
  | uint8, uint8 | float32, float32 | float64, float64 => true
  | _, _ => false
  end.

(** A tensor: its dtype, its shape and its elements in storage order. *)
Record Tensor : Type := { dtype_of : dtype; shape : list nat; data : list Q }.

(** Elementwise operations keep dtype and shape. *)
Definition pointwise (f : Q -> Q) (t : Tensor) : Tensor :=
  {| dtype_of := dtype_of t; shape := shape t; data := map f (data t) |}.

(** The value a cast to [dt] stores: an integer cast truncates and wraps. *)
Definition cast_value (dt : dtype) (v : Q) : Q :=
  match dt with
  | uint8 => inject_Z (Qtrunc v mod 256)
  | float32 | float64 => v
  end.

(** [t.to(dt)] *)
Definition to (dt : dtype) (t : Tensor) : Tensor :=
  {| dtype_of := dt; shape := shape t; data := map (cast_value dt) (data t) |}.



(** [torch.clamp(t, lo, hi)]: [min(max(t, lo), hi)]. *)
Definition clamp_value (lo hi v : Q) : Q :=
  let v' := if Qltb v lo then lo else v in
  if Qltb hi v' then hi else v'.
Definition clamp (t : Tensor) (lo hi : Q) : Tensor := pointwise (clamp_value lo hi) t.


(** The elements a [uint8] tensor can hold. *)
Definition is_uint8_value (v : Q) : Prop :=
  exists z : Z, v = inject_Z z /\ 0 <= z <= 255.

End Utils.

(** ** [RandomResizedCropTorch] *)
Module RandomResizedCropTorch.

Record config : Type := { scale : Q * Q; ratio : Q * Q }.

(** The dictionary [get_params_dependent_on_targets] returns. *)
Record crop_params : Type := {
  crop_height : Z; crop_width : Z; h_start : Q; w_start : Q
}.

(** [i * 1.0 / (slack + 1e-10)] *)
Definition start_fraction (i slack : Z) : Q :=
  (inject_Z i * 1 / (inject_Z slack + (1 # 10000000000)))%Q.

Section Sampling.
Context {R : Randomness}.

(** One attempt's candidate size [(w, h)] for an image of area [area]: the
    floating-point draw of lines 237-242 ([random.uniform], [math.log],
    [math.exp], [math.sqrt], [round]), left abstract. *)
Variable sample_size : config -> Z -> M py_state (Z * Z).

(** The [for _attempt in range(k)] loop; [None] when it falls through. *)
Fixpoint attempts (k : nat) (self : config) (height width : Z)
  : M py_state (option crop_params) :=
  match k with
  | O => ret None
  | S k' =>
      (' (w, h) <- sample_size self (height * width) ;;
       if (0 <? w) && (w <=? width) && (0 <? h) && (h <=? height) then
         (i <- randint 0 (height - h) ;;
          j <- randint 0 (width - w) ;;
          ret (Some {| crop_height := h; crop_width := w;
                       h_start := start_fraction i (height - h);
                       w_start := start_fraction j (width - w) |}))
       else attempts k' self height width)%py
  end.

(** The size of the central crop, lines 255-264. *)
Definition fallback_size (self : config) (height width : Z) : exn + Z * Z :=
  if height =? 0 then inl ZeroDivisionError
  else
    let in_ratio := (inject_Z width / inject_Z height)%Q in
    if Qltb in_ratio (min2 (ratio self)) then
      let w := width in
      if Qeq_bool (min2 (ratio self)) 0 then inl ZeroDivisionError
      else inr (w, py_round (inject_Z w / min2 (ratio self)))
    else if Qltb (max2 (ratio self)) in_ratio then
      let h := height in
      inr (py_round (inject_Z h * max2 (ratio self)), h)
    else inr (width, height).

(** Lines 254-272. *)
Definition fallback (self : config) (height width : Z) : exn + crop_params :=
  match fallback_size self height width with
  | inl e => inl e
  | inr (w, h) =>
      let i := (height - h) / 2 in
      let j := (width - w) / 2 in
      inr {| crop_height := h; crop_width := w;
             h_start := start_fraction i (height - h);
             w_start := start_fraction j (width - w) |}
  end.

(** [get_params_dependent_on_targets], for an image of [height] by [width]. *)
Definition get_params_dependent_on_targets (self : config) (height width : Z)
  : M py_state crop_params :=
  (r <- attempts 10 self height width ;;
   match r with
   | Some p => ret p
   | None => fun g => (fallback self height width, g)
   end)%py.

End Sampling.
End RandomResizedCropTorch.

(** ** Arrays of rank two and three *)

(** Elementwise combination of two lists. *)
Fixpoint map2 {A B C} (f : A -> B -> C) (l1 : list A) (l2 : list B) : list C :=
  match l1, l2 with
  | a :: l1', b :: l2' => f a b :: map2 f l1' l2'
  | _, _ => []
  end.

(** Sum of the elements of a list, of a matrix. *)
Definition sum_list (l : list Z) : Z := fold_right Z.add 0 l.
Definition sum_matrix (m : list (list Z)) : Z := sum_list (map sum_list m).

(** Python's [enumerate]. *)
Definition enumerate {A} (l : list A) : list (Z * A) :=
  combine (map Z.of_nat (seq 0 (length l))) l.

(** A matrix has [h] rows of [w] elements. *)
Definition has_shape {A} (h w : nat) (m : list (list A)) : Prop :=
  length m = h /\ Forall (fun row => length row = w) m.

(** ** [CropNonEmptyMaskIfExistsTorch] *)
Module CropNonEmptyMaskIfExistsTorch.

Record config : Type := {
  height : Z;
  width : Z;
  ignore_values : option (list Z);
  ignore_channels : option (list Z)
}.

(** A mask of rank two (rows of pixels) or three (channels first). *)
Inductive Mask : Type :=
| Mask2 (px : list (list Z))
| Mask3 (channels : list (list (list Z))).

(** The returned dictionary. *)
Record crop_coords : Type := { x_min : Z; x_max : Z; y_min : Z; y_max : Z }.

Definition shape2 {A} (px : list (list A)) : Z * Z :=
  (Z.of_nat (length px), Z.of_nat (length (hd [] px))).

(** [mask.shape[-2:]]; a rank-three mask is read off its first channel. *)
Definition shape_hw (mask : Mask) : Z * Z :=
  match mask with
  | Mask2 px => shape2 px
  | Mask3 channels => shape2 (hd [] channels)
  end.

(** [mask.ndim] *)
Definition ndim (mask : Mask) : Z :=
  match mask with Mask2 _ => 2 | Mask3 _ => 3 end.

(** [torch.where(mask == v, zeros, mask)] *)
Definition zero_where_eq (v : Z) (mask : Mask) : Mask :=
  let f := fun p : Z => if p =? v then 0 else p in
  match mask with
  | Mask2 px => Mask2 (map (map f) px)
  | Mask3 channels => Mask3 (map (map (map f)) channels)
  end.

(** [[ch for ch in range(mask.shape[0]) if ch not in ignore_channels]] *)
Definition target_channels (n_channels : nat) (ignored : list Z) : list nat :=
  filter (fun ch => negb (existsb (Z.eqb (Z.of_nat ch)) ignored)) (seq 0 n_channels).

(** Lines 315-322: the mask with ignored values zeroed and ignored channels
    dropped. *)
Definition apply_ignores (self : config) (mask : Mask) : Mask :=
  let mask :=
    match ignore_values self with
    | Some vs => fold_left (fun mask v => zero_where_eq v mask) vs mask
    | None => mask
    end in
  match mask, ignore_channels self with
  | Mask3 channels, Some ignored =>
      Mask3 (map (fun ch => nth ch channels [])
                 (target_channels (length channels) ignored))
  | _, _ => mask
  end.

(** [mask.sum()] *)
Definition mask_sum (mask : Mask) : Z :=
  match mask with
  | Mask2 px => sum_matrix px
  | Mask3 channels => sum_list (map sum_matrix channels)
  end.

(** [mask.sum(dim=0)] of a rank-three mask that has a channel. *)
Definition sum_dim0 (channels : list (list (list Z))) : list (list Z) :=
  match channels with
  | [] => []
  | c :: cs => fold_left (map2 (map2 Z.add)) cs c
  end.

(** [mask.sum(dim=0) if mask.ndim == 3 else mask] *)
Definition flatten_channels (mask : Mask) : list (list Z) :=
  match mask with
  | Mask2 px => px
  | Mask3 channels => sum_dim0 channels
  end.

(** [torch.nonzero] of a matrix: the [(y, x)] of its non-zero elements, in
    row-major order. *)
Definition nonzero (px : list (list Z)) : list (Z * Z) :=
  concat (map (fun yr : Z * list Z =>
                 map (fun xv : Z * Z => (fst yr, fst xv))
                     (filter (fun xv : Z * Z => negb (snd xv =? 0))
                             (enumerate (snd yr))))
              (enumerate px)).

(** [torch.clamp(v, lo, hi)] on integers. *)
Definition clamp (v lo hi : Z) : Z := Z.min (Z.max v lo) hi.

Section Sampling.
Context {R : Randomness}.

(** Lines 331-341: the top-left corner [(x_min, y_min)] of the crop. *)
Definition sample_corner (self : config) (mask : Mask) (mask_height mask_width : Z)
  : M py_state (Z * Z) :=
  if mask_sum mask =? 0 then
    (x_min <- randint 0 (mask_width - width self) ;;
     y_min <- randint 0 (mask_height - height self) ;;
     ret (x_min, y_min))%py
  else
    let mask := flatten_channels mask in
    let non_zero_yx := nonzero mask in
    (' (y, x) <- choice non_zero_yx ;;
     rx <- randint 0 (width self - 1) ;;
     let x_min := x - rx in
     ry <- randint 0 (height self - 1) ;;
     let y_min := y - ry in
     let x_min := clamp x_min 0 (mask_width - width self) in
     let y_min := clamp y_min 0 (mask_height - height self) in
     ret (x_min, y_min))%py.

(** [get_params_dependent_on_targets], from [mask = params["mask"]]. *)
Definition get_params_dependent_on_targets (self : config) (mask : Mask)
  : M py_state crop_coords :=
  let (mask_height, mask_width) := shape_hw mask in
  let mask := apply_ignores self mask in
  if (height self >? mask_height) || (width self >? mask_width) then
    raise (CropLargerThanImage (height self) (width self) mask_height mask_width)
  else
    (' (x_min, y_min) <- sample_corner self mask mask_height mask_width ;;
     let x_max := x_min + width self in
     let y_max := y_min + height self in
     ret {| x_min := x_min; x_max := x_max; y_min := y_min; y_max := y_max |})%py.

End Sampling.

(** Every channel of the mask has [h] rows of [w] pixels. *)
Definition channels_have_shape (h w : nat) (mask : Mask) : Prop :=
  match mask with
  | Mask2 px => has_shape h w px
  | Mask3 channels => Forall (has_shape h w) channels
  end.

(** A mask of [h] by [w] pixels; one of rank three has a channel. *)
Definition mask_has_shape (h w : nat) (mask : Mask) : Prop :=
  channels_have_shape h w mask /\
  match mask with
  | Mask2 _ => True
  | Mask3 channels => channels <> []
  end.

(** The pixel of row [y] and column [x]. *)
Definition pixel (px : list (list Z)) (y x : Z) : Z :=
  nth (Z.to_nat x) (nth (Z.to_nat y) px []) 0.

(** Every pixel of the mask satisfies [P]. *)
Definition all_pixels (P : Z -> Prop) (mask : Mask) : Prop :=
  match mask with
  | Mask2 px => Forall (Forall P) px
  | Mask3 channels => Forall (Forall (Forall P)) channels
  end.

(** Some pixel of the mask is not zero. *)
Definition has_nonzero_pixel (mask : Mask) : Prop :=
  match mask with
  | Mask2 px => Exists (Exists (fun v => v <> 0)) px
  | Mask3 channels => Exists (Exists (Exists (fun v => v <> 0))) channels
  end.

End CropNonEmptyMaskIfExistsTorch.

(** ** [RandomGridShuffleTorch] *)
Module RandomGridShuffleTorch.

Record config : Type := { grid : Z * Z }.

(** A row of the returned [tiles] array. *)
Record tile : Type := {
  curr_x : Z; curr_y : Z; old_x : Z; old_y : Z; shift_x : Z; shift_y : Z
}.

(** [np.linspace(0, stop, num, dtype=np.int)]: the [num] evenly spaced points
    [i * stop / (num - 1)], each cut down to an integer. numpy computes the
    points in floating point; here the quotient is exact. *)
Definition linspace_int (stop : Z) (num : nat) : list Z :=
  map (fun i => Z.of_nat i * stop / Z.of_nat (num - 1)) (seq 0 num).

(** [np.meshgrid(a, b, indexing="ij")] *)
Definition meshgrid_ij (a b : list Z) : list (list Z) * list (list Z) :=
  (map (fun x => map (fun _ => x) b) a, map (fun _ => b) a).

(** [mat[:-1, :-1]] and [mat[1:, 1:]] *)
Definition drop_last2 {A} (mat : list (list A)) : list (list A) :=
  map (@removelast A) (removelast mat).
Definition drop_first2 {A} (mat : list (list A)) : list (list A) :=
  map (@tl A) (tl mat).

(** Elementwise difference of two matrices. *)
Definition matrix_sub (a b : list (list Z)) : list (list Z) :=
  map2 (map2 Z.sub) a b.

(** [np.stack((a, b), axis=2)] of two matrices: a matrix of pairs. *)
Definition stack2 {A B} (a : list (list A)) (b : list (list B)) : list (list (A * B)) :=
  map2 (map2 pair) a b.

(** [np.stack(np.indices((n, m)), axis=2)]: the matrix whose [(i, j)] entry is
    [(i, j)]. *)
Definition indices (n m : nat) : list (list (nat * nat)) :=
  map (fun i => map (fun j => (i, j)) (seq 0 m)) (seq 0 n).

(** The arrays lines 392-406 compute. *)
Record Grid : Type := {
  index_height_matrix : list (list Z);
  index_width_matrix : list (list Z);
  height_tile_sizes : list (list Z);
  width_tile_sizes : list (list Z);
  tiles_sizes : list (list (Z * Z))
}.

(** Lines 395-406, from the two arrays of split points. *)
Definition grid_of_splits (height_split width_split : list Z) : Grid :=
  let (height_matrix, width_matrix) := meshgrid_ij height_split width_split in
  let index_height_matrix := drop_last2 height_matrix in
  let index_width_matrix := drop_last2 width_matrix in
  let shifted_index_height_matrix := drop_first2 height_matrix in
  let shifted_index_width_matrix := drop_first2 width_matrix in
  let height_tile_sizes := matrix_sub shifted_index_height_matrix index_height_matrix in
  let width_tile_sizes := matrix_sub shifted_index_width_matrix index_width_matrix in
  {| index_height_matrix := index_height_matrix;
     index_width_matrix := index_width_matrix;
     height_tile_sizes := height_tile_sizes;
     width_tile_sizes := width_tile_sizes;
     tiles_sizes := stack2 height_tile_sizes width_tile_sizes |}.

(** Lines 392-406. *)
Definition partition (height width : Z) (n m : nat) : Grid :=
  let height_split := linspace_int height (n + 1) in
  let width_split := linspace_int width (m + 1) in
  grid_of_splits height_split width_split.

(** Rows of [(height, width)] compared: equality and the lexicographic order
    [np.unique(..., axis=0)] sorts by. *)
Definition size_eqb (a b : Z * Z) : bool :=
  (fst a =? fst b) && (snd a =? snd b).
Definition size_ltb (a b : Z * Z) : bool :=
  (fst a <? fst b) || ((fst a =? fst b) && (snd a <? snd b)).

Fixpoint insert_unique (x : Z * Z) (l : list (Z * Z)) : list (Z * Z) :=
  match l with
  | [] => [x]
  | y :: l' =>
      if size_eqb x y then l
      else if size_ltb x y then x :: l
      else y :: insert_unique x l'
  end.

(** [np.unique(rows, axis=0)]: the distinct rows, sorted. *)
Definition unique_rows (rows : list (Z * Z)) : list (Z * Z) :=
  fold_right insert_unique [] rows.

(** [mat[mask]] for a boolean matrix [mask]: the selected entries in
    row-major order. *)
Definition select_row {A} (mrow : list bool) (row : list A) : list A :=
  map snd (filter fst (combine mrow row)).
Definition masked_select {A} (mask : list (list bool)) (mat : list (list A)) : list A :=
  concat (map2 select_row mask mat).

(** [mat[mask] = vals]: the selected entries overwritten, in row-major order,
    by the successive [vals]. [assign_row] also returns the values left
    over for the following rows. *)
Fixpoint assign_row {A} (mrow : list bool) (row vals : list A) : list A * list A :=
  match mrow, row with
  | b :: mrow', x :: row' =>
      match b, vals with
      | true, v :: vals' =>
          let (r, rest) := assign_row mrow' row' vals' in (v :: r, rest)
      | _, _ =>
          let (r, rest) := assign_row mrow' row' vals in (x :: r, rest)
      end
  | _, _ => (row, vals)
  end.

Fixpoint masked_assign {A} (mask : list (list bool)) (mat : list (list A)) (vals : list A)
  : list (list A) :=
  match mask, mat with
  | mrow :: mask', row :: mat' =>
      let (r, rest) := assign_row mrow row vals in
      r :: masked_assign mask' mat' rest
  | _, _ => mat
  end.

(** [mat[rows, cols]] where the index pair of each entry comes from [idx]. *)
Definition at2 {A} (d : A) (mat : list (list A)) (ij : nat * nat) : A :=
  nth (snd ij) (nth (fst ij) mat []) d.
Definition take2 {A} (d : A) (mat : list (list A)) (idx : list (list (nat * nat)))
  : list (list A) :=
  map (map (at2 d mat)) idx.

(** [np.all(tiles_sizes == bbox_size, axis=2)] *)
Definition eq_mat (tiles_sizes : list (list (Z * Z))) (bbox_size : Z * Z)
  : list (list bool) :=
  map (map (fun sz => size_eqb sz bbox_size)) tiles_sizes.

(** [np.stack([a, b, c, d, e, f], axis=1)] of six vectors. *)
Definition stack6 (a b c d e f : list Z) : list tile :=
  map2 (fun abc def =>
          {| curr_x := fst (fst abc); curr_y := snd (fst abc); old_x := snd abc;
             old_y := fst (fst def); shift_x := snd (fst def); shift_y := snd def |})
       (combine (combine a b) c) (combine (combine d e) f).

Section Sampling.
Context {R : Randomness}.

(** The body of the loop of lines 411-413, for one [bbox_size]. *)
Definition shuffle_group (tiles_sizes : list (list (Z * Z)))
    (st : list (list (nat * nat)) * np_state) (bbox_size : Z * Z)
  : list (list (nat * nat)) * np_state :=
  let (new_index_matrix, random_state) := st in
  let eq_mat := eq_mat tiles_sizes bbox_size in
  let (shuffled, random_state') :=
    permutation random_state (masked_select eq_mat new_index_matrix) in
  (masked_assign eq_mat new_index_matrix shuffled, random_state').

(** Lines 408-413: the matrix that gives each tile the index of the tile it is
    paired with. *)
Definition permute_tiles (tiles_sizes : list (list (Z * Z))) (n m : nat)
    (random_state : np_state) : list (list (nat * nat)) :=
  let new_index_matrix := indices n m in
  fst (fold_left (shuffle_group tiles_sizes)
                 (unique_rows (concat tiles_sizes))
                 (new_index_matrix, random_state)).

(** Lines 415-426. *)
Definition make_tiles (g : Grid) (new_index_matrix : list (list (nat * nat)))
  : list tile :=
  let old_x := concat (take2 0 (index_height_matrix g) new_index_matrix) in
  let old_y := concat (take2 0 (index_width_matrix g) new_index_matrix) in
  let shift_x := concat (height_tile_sizes g) in
  let shift_y := concat (width_tile_sizes g) in
  let curr_x := concat (index_height_matrix g) in
  let curr_y := concat (index_width_matrix g) in
  stack6 curr_x curr_y old_x old_y shift_x shift_y.

(** The tiles computed from a seed, lines 390-426. *)
Definition tiles_of_seed (height width : Z) (n m : nat) (seed : Z) : list tile :=
  let random_state := RandomState seed in
  let g := partition height width n m in
  make_tiles g (permute_tiles (tiles_sizes g) n m random_state).

(** [get_params_dependent_on_targets], for an image of [height] by [width];
    the result is the value of [params["tiles"]]. *)
Definition get_params_dependent_on_targets (self : config) (height width : Z)
  : M py_state (list tile) :=
  let (n, m) := grid self in
  if (n <=? 0) || (m <=? 0) then raise (GridNotPositive n m)
  else if (n >? height / 2) || (m >? width / 2) then raise GridCellTooSmall
  else
    (seed <- randint 0 10000 ;;
     ret (tiles_of_seed height width (Z.to_nat n) (Z.to_nat m) seed))%py.

End Sampling.
End RandomGridShuffleTorch.

(** ** [augmentations/utils.py]: channels, shapes and value ranges *)
Module UtilsShapes.
Import Utils.

(** The exceptions this part of the file can raise. *)
Inductive error : Type :=
| AssertionError
    (* assert image.size(0) <= 3, "Supports only rgb and grayscale images." *)
| DimensionError
    (* IndexError of size(0) on a tensor without dimensions *)
| RuntimeError.
    (* torch: shape is invalid for input of size ... *)

(** [t.numel()] for a tensor of the given shape. *)
Definition numel (shape : list nat) : nat := fold_right Nat.mul 1%nat shape.

(** [t.size(0)] *)
Definition size0 (t : Tensor) : error + nat :=
  match shape t with
  | [] => inl DimensionError
  | c :: _ => inr c
  end.

(** [torch.cat([t] * 3)]: three copies of [t] along its first dimension. *)
Definition cat3 (t : Tensor) : error + Tensor :=
  match shape t with
  | [] => inl RuntimeError
  | c :: rest =>
      inr {| dtype_of := dtype_of t;
             shape := (c + c + c)%nat :: rest;
             data := data t ++ data t ++ data t |}
  end.

Definition grayscale_to_rgb (image : Tensor) : error + Tensor :=
  match size0 image with
  | inl e => inl e
  | inr c =>
      if negb (c <=? 3)%nat then inl AssertionError
      else if (c =? 3)%nat then inr image
      else cat3 image
  end.

(** [rgb_image(func)]: the wrapped function. *)
Definition rgb_image {B} (func : Tensor -> B) (img : Tensor) : error + B :=
  match grayscale_to_rgb img with
  | inl e => inl e
  | inr img => inr (func img)
  end.

Definition is_rgb_image (image : Tensor) : error + bool :=
  match size0 image with
  | inl e => inl e
  | inr c => inr (c =? 3)%nat
  end.



Definition MAX_VALUES_BY_DTYPE : list (dtype * Q) :=
  [(uint8, 255%Q); (float32, 1%Q); (float64, 1%Q)].

(** [d.get(key, default)] *)
Definition get {V} (d : list (dtype * V)) (key : dtype) (default : V) : V :=
  match find (fun kv => dtype_eqb (fst kv) key) d with
  | Some kv => snd kv
  | None => default
  end.

Definition clip (img : Tensor) (dtype : dtype) (maxval : Q) : Tensor :=
  to dtype (clamp img 0 maxval).

(** [clipped(func)]: the wrapped function. *)
Definition clipped (func : Tensor -> Tensor) (img : Tensor) : Tensor :=
  let dtype := dtype_of img in
  let maxval := get MAX_VALUES_BY_DTYPE dtype 1%Q in
  clip (func img) dtype maxval.




End UtilsShapes.

(** ** [RandomSizedBBoxSafeCropTorch] *)
Module RandomSizedBBoxSafeCropTorch.

Record config : Type := { height : Z; width : Z; erosion_rate : Q }.

(** The dictionary [get_params_dependent_on_targets] returns. *)
Record crop_params : Type := {
  h_start : Q;
  w_start : Q;
  crop_height : Z;
  crop_width : Z
}.

(** [np.clip(v, lo, hi)]: [minimum(maximum(v, lo), hi)]. *)
Definition clip (v lo hi : Q) : Q :=
  let v' := if Qltb v lo then lo else v in
  if Qltb hi v' then hi else v'.

Section Sampling.
Context {R : Randomness}.

(** [random.random()], a float of [[0, 1)] drawn from the state of the
    [random] module. *)
Variable random : M py_state Q.

(** [union_of_bboxes(width, height, bboxes, erosion_rate)] of
    [albumentations.augmentations.bbox_utils]: the box [(x, y, x2, y2)], in
    fractions of the image sides, around all the boxes. *)
Variable bbox : Type.
Variable union_of_bboxes : Z -> Z -> list bbox -> Q -> Q * Q * Q * Q.

(** Lines 283-291: no bounding box. *)
Definition without_bboxes (self : config) (img_h img_w : Z)
  : M py_state crop_params :=
  let erosive_h := Qtrunc (inject_Z img_h * (1 - erosion_rate self)) in
  (crop_height <- (if erosive_h >=? img_h then ret img_h
                   else randint erosive_h img_h) ;;
   h_start <- random ;;
   w_start <- random ;;
   if img_h =? 0 then raise ZeroDivisionError
   else
     ret {| h_start := h_start;
            w_start := w_start;
            crop_height := crop_height;
            crop_width :=
              Qtrunc (inject_Z (crop_height * img_w) / inject_Z img_h) |})%py.

(** Lines 292-304: the region around the union of the boxes. *)
Definition around_bboxes (self : config) (img_h img_w : Z)
    (bboxes : list bbox) : M py_state crop_params :=
  let '(x, y, x2, y2) :=
    union_of_bboxes img_w img_h bboxes (erosion_rate self) in
  (r1 <- random ;;
   r2 <- random ;;
   let bx := (x * r1)%Q in
   let by_ := (y * r2)%Q in
   r3 <- random ;;
   r4 <- random ;;
   let bx2 := (x2 + (1 - x2) * r3)%Q in
   let by2 := (y2 + (1 - y2) * r4)%Q in
   let bw := (bx2 - bx)%Q in
   let bh := (by2 - by_)%Q in
   let crop_height :=
     if Qle_bool 1 bh then img_h else Qtrunc (inject_Z img_h * bh) in
   let crop_width :=
     if Qle_bool 1 bw then img_w else Qtrunc (inject_Z img_w * bw) in
   let h_start := clip (if Qle_bool 1 bh then 0 else by_ / (1 - bh)) 0 1 in
   let w_start := clip (if Qle_bool 1 bw then 0 else bx / (1 - bw)) 0 1 in
   ret {| h_start := h_start; w_start := w_start;
          crop_height := crop_height; crop_width := crop_width |})%py.

(** [get_params_dependent_on_targets], for an image of [img_h] by [img_w]
    and the boxes [params["bboxes"]]. *)
Definition get_params_dependent_on_targets (self : config) (img_h img_w : Z)
    (bboxes : list bbox) : M py_state crop_params :=
  if (length bboxes =? 0)%nat then without_bboxes self img_h img_w
  else around_bboxes self img_h img_w bboxes.

End Sampling.
End RandomSizedBBoxSafeCropTorch.

(** ** [utils/gpu_benchmark.py] *)
Module GpuBenchmark.
Import Ascii String.

(** The exceptions this file can raise. *)
Inductive error : Type :=
| TypeError
    (* list(iterations) of an object that is not iterable *)
| ListIndexError
    (* IndexError: iterations[-1] of an empty list *)
| LowNotBelowHigh
    (* ValueError("low >= high") of np.random.randint *)
| UnpackError.
    (* ValueError: not enough values to unpack *)

(** [len(s)] and [s * k] on strings. *)
Definition len (s : string) : Z := Z.of_nat (String.length s).

Definition times (s : string) (k : Z) : string :=
  String.concat EmptyString (repeat s (Z.to_nat k)).

Definition newline : string := String "010"%char EmptyString.

Definition _format_row (values : list string) (max_lengths : list Z) : string :=
  let row :=
    fold_left
      (fun row vl =>
         let '(value, length) := vl in
         let padding := times " " (length - len value) in
         row ++ "| " ++ padding ++ value ++ " ")%string
      (combine values max_lengths) EmptyString in
  (row ++ "|")%string.

(** [l[k] = v] *)
Fixpoint setitem {A} (l : list A) (k : nat) (v : A) : list A :=
  match l, k with
  | [], _ => []
  | _ :: l', O => v :: l'
  | a :: l', S k' => a :: setitem l' k' v
  end.

Section Table.
(** The shapes of the benchmark, [str(shape)], and the format [f"{x:.2f}"]. *)
Variable Shape : Type.
Variable str : Shape -> string.
Variable format_2f : Q -> string.

(** An entry of [results]. *)
Record result : Type := { shape : Shape; cpu_fps : Q; gpu_fps : Q }.

(** Lines 37-44: the columns and their widths. *)
Definition columns (results : list result) (cols_length : list Z)
  : list string * list string * list string * list Z :=
  fold_left
    (fun st result =>
       let '(shapes, cpu, gpu, cols_length) := st in
       let shapes := shapes ++ [str (shape result)] in
       let cpu := cpu ++ [format_2f (cpu_fps result)] in
       let gpu := gpu ++ [format_2f (gpu_fps result)] in
       let cols_length :=
         setitem cols_length 0
           (Z.max (nth 0 cols_length 0) (len (last shapes EmptyString))) in
       let cols_length :=
         setitem cols_length 1
           (Z.max (nth 1 cols_length 0) (len (last cpu EmptyString))) in
       let cols_length :=
         setitem cols_length 2
           (Z.max (nth 2 cols_length 0) (len (last gpu EmptyString))) in
       (shapes, cpu, gpu, cols_length))
    results ([], [], [], cols_length).

Definition results_to_pretty_string (results : list result) : string :=
  let cols := ["Shape"; "CPU FPS"; "GPU FPS"]%string in
  let cols_length := map len cols in
  let '(shapes, cpu_fps, gpu_fps, cols_length) := columns results cols_length in
  let results_string := (_format_row cols cols_length ++ newline)%string in
  let results_string :=
    (results_string
       ++ _format_row (map (fun i => times "-" i) cols_length) cols_length
       ++ newline)%string in
  fold_left
    (fun results_string values =>
       let '(a, (b, c)) := values in
       (results_string ++ _format_row [a; b; c] cols_length ++ newline)%string)
    (combine shapes (combine cpu_fps gpu_fps)) results_string.

End Table.



Section NumpyRandom.
(** The global generator of [numpy.random], with its bounded draw. *)
Variable np_global : Type.
Variable np_randbelow : Z -> np_global -> Z * np_global.

Definition G (A : Type) : Type := np_global -> (error + A) * np_global.

Definition gret {A} (a : A) : G A := fun g => (inr a, g).

Definition gbind {A B} (c : G A) (k : A -> G B) : G B :=
  fun g => match c g with
           | (inl e, g') => (inl e, g')
           | (inr a, g') => k a g'
           end.

(** [np.random.randint(low, high)]: an integer of [[low, high)]. *)
Definition np_randint (low high : Z) : G Z :=
  fun g =>
    if high <=? low then (inl LowNotBelowHigh, g)
    else let (r, g') := np_randbelow (high - low) g in (inr (low + r), g').

(** The body of the loop, lines 64-68. *)
Definition gen_bbox (h w : Z) : G (list Z) :=
  gbind (np_randint 0 (w - 2)) (fun x1 =>
  gbind (np_randint 0 (h - 2)) (fun y1 =>
  gbind (np_randint (x1 + 1) w) (fun x2 =>
  gbind (np_randint (y1 + 1) h) (fun y2 =>
  gbind (np_randint 0 100) (fun class =>
  gret [x1; y1; x2; y2; class]))))).

Fixpoint gen_bboxes (count : nat) (h w : Z) : G (list (list Z)) :=
  match count with
  | O => gret []
  | S count' =>
      gbind (gen_bbox h w) (fun bbox =>
      gbind (gen_bboxes count' h w) (fun bboxes =>
      gret (bbox :: bboxes)))
  end.

Definition _gen_random_bboxes (shape : list Z) : G (list (list Z)) :=
  match firstn 2 shape with
  | [h; w] =>
      gbind (np_randint 1 100) (fun count => gen_bboxes (Z.to_nat count) h w)
  | _ => fun g => (inl UnpackError, g)
  end.

End NumpyRandom.
End GpuBenchmark.

(** ** A concrete random source, for running the model *)

(** A linear congruential generator stands in for both generators; a
    permutation is a rotation by the next output, reversed when that output
    is odd. *)
Definition lcg (s : Z) : Z := (s * 1103515245 + 12345) mod 2147483648.

Definition rotate {A} (k : nat) (l : list A) : list A := skipn k l ++ firstn k l.

Definition lcg_shuffle (s : Z) (k : nat) : list nat :=
  let l := rotate (Z.to_nat (lcg s / 65536) mod k) (seq 0 k) in
  if Z.odd (lcg s / 65536) then rev l else l.

Definition lcg_randomness : Randomness :=
  {| py_state := Z;
     randbelow := fun n g => ((lcg g / 65536) mod n, lcg g);
     np_state := Z;
     RandomState := fun seed => seed;
     shuffled_indices := fun s k => (lcg_shuffle s k, lcg s) |}.




(** ** Notions used in the statements *)

(** The matrix of [n] rows and [m] columns whose [(i, j)] entry is [f i j]. *)
Definition tabulate {A} (n m : nat) (f : nat -> nat -> A) : list (list A) :=
  map (fun i => map (fun j => f i j) (seq 0 m)) (seq 0 n).





(** Pixel [(y, x)] lies in the tile of index [ij] of the grid [g]. *)
Definition in_tile (g : RandomGridShuffleTorch.Grid) (ij : nat * nat) (y x : Z) : Prop :=
  let top := RandomGridShuffleTorch.at2 0 (RandomGridShuffleTorch.index_height_matrix g) ij in
  let left := RandomGridShuffleTorch.at2 0 (RandomGridShuffleTorch.index_width_matrix g) ij in
  let h := RandomGridShuffleTorch.at2 0 (RandomGridShuffleTorch.height_tile_sizes g) ij in
  let w := RandomGridShuffleTorch.at2 0 (RandomGridShuffleTorch.width_tile_sizes g) ij in
  top <= y < top + h /\ left <= x < left + w.







(** What is left of a pixel value [p] once the values [vs] are ignored. *)
Definition kept_value (vs : list Z) (p : Z) : Z :=
  if existsb (Z.eqb p) vs then 0 else p.

(** [w] is the largest element of [l]. *)
Definition is_max (w : Z) (l : list Z) : Prop :=
  In w l /\ Forall (fun v => v <= w) l.

(** The text whose lines are [rows], each ended by a newline. *)
Definition unlines (rows : list String.string) : String.string :=
  fold_right
    (fun row text => String.append row (String.append GpuBenchmark.newline text))
    String.EmptyString rows.

(** A box [[x1, y1, x2, y2, class]] with corners in pixels of an image of
    [h] by [w], not empty, and a class below 100. *)
Definition valid_bbox (h w : Z) (bbox : list Z) : Prop :=
  exists x1 y1 x2 y2 class : Z,
    bbox = [x1; y1; x2; y2; class] /\
    0 <= x1 < x2 /\ x2 < w /\ 0 <= y1 < y2 /\ y2 < h /\ 0 <= class < 100.

(** * Properties *)

(** ** The concrete random source obeys the laws *)

Lemma rotate_perm {A} (k : nat) (l : list A) : Permutation l (rotate k l).
Proof.
  unfold rotate.
  rewrite <- (firstn_skipn k l) at 1.
  apply Permutation_app_comm.
Qed.

Lemma lcg_randomness_laws : RandomnessLaws lcg_randomness.
Proof.
  split.
  - intros n g Hn. cbn. apply Z.mod_pos_bound. exact Hn.
  - intros s k. cbn. unfold lcg_shuffle.
    destruct (Z.odd _).
    + rewrite <- Permutation_rev. apply rotate_perm.
    + apply rotate_perm.
Qed.

(** ** [PadIfNeededTorch.update_params] *)
Section PadIfNeeded.
Import PadIfNeededTorch.




End PadIfNeeded.

(** ** Rounding on rationals *)

Lemma Qltb_true (a b : Q) : Qltb a b = true <-> (a < b)%Q.
Proof.
  unfold Qltb. rewrite negb_true_iff. split.
  - intros H. apply Qnot_le_lt. intros Hle.
    apply Qle_bool_iff in Hle. congruence.
  - intros H. destruct (Qle_bool b a) eqn:E; [| reflexivity].
    apply Qle_bool_iff in E. lra.
Qed.

Lemma Qltb_false (a b : Q) : Qltb a b = false <-> (b <= a)%Q.
Proof.
  unfold Qltb. rewrite negb_false_iff. apply Qle_bool_iff.
Qed.



Lemma Qtrunc_Z (z : Z) : Qtrunc (inject_Z z) = z.
Proof.
  unfold Qtrunc. destruct (Qle_bool 0 (inject_Z z)).
  - apply Qfloor_Z.
  - apply Qceiling_Z.
Qed.

(** ** [on_float_image] *)
Section OnFloatImage.
Import Utils.







End OnFloatImage.

(** ** [RandomResizedCropTorch]: the fallback crop *)
Section RandomResizedCrop.
Import RandomResizedCropTorch.
Context {R : Randomness}.
Variable sample_size : config -> Z -> M py_state (Z * Z).





End RandomResizedCrop.



(** ** Lists and matrices *)
Section ListFacts.

Lemma length_map2 {A B C} (f : A -> B -> C) (l1 : list A) (l2 : list B) :
  length l1 = length l2 -> length (map2 f l1 l2) = length l1.
Proof.
  revert l2. induction l1 as [| a l1 IH]; intros [| b l2] H; cbn in *;
    try discriminate; [reflexivity |].
  f_equal. apply IH. lia.
Qed.

Lemma sum_list_cons (a : Z) (l : list Z) : sum_list (a :: l) = a + sum_list l.
Proof. reflexivity. Qed.

Lemma sum_list_app (l1 l2 : list Z) :
  sum_list (l1 ++ l2) = sum_list l1 + sum_list l2.
Proof.
  induction l1 as [| a l1 IH]; [reflexivity |].
  cbn [app]. rewrite !sum_list_cons, IH. lia.
Qed.

Lemma sum_list_map2_add (l1 l2 : list Z) :
  length l1 = length l2 ->
  sum_list (map2 Z.add l1 l2) = sum_list l1 + sum_list l2.
Proof.
  revert l2. induction l1 as [| a l1 IH]; intros [| b l2] H;
    try discriminate; [reflexivity |].
  cbn [map2]. rewrite !sum_list_cons, IH by (cbn in H; lia). lia.
Qed.

Lemma sum_list_nonneg (l : list Z) :
  Forall (fun v => 0 <= v) l -> 0 <= sum_list l.
Proof.
  induction 1 as [| a l Ha _ IH]; [cbn; lia |].
  rewrite sum_list_cons. lia.
Qed.

Lemma sum_list_pos (l : list Z) :
  Forall (fun v => 0 <= v) l -> Exists (fun v => 0 < v) l -> 0 < sum_list l.
Proof.
  intros Hall Hex. induction Hex as [a l Ha | a l _ IH];
    inversion Hall as [| ? ? H0 Hl]; subst; rewrite sum_list_cons.
  - pose proof (sum_list_nonneg l Hl). lia.
  - specialize (IH Hl). lia.
Qed.

(** A list all of whose elements are zero sums to zero. *)
Lemma sum_list_zero (l : list Z) : Forall (fun v => v = 0) l -> sum_list l = 0.
Proof.
  induction 1 as [| a l Ha _ IH]; [reflexivity |].
  rewrite sum_list_cons. lia.
Qed.

Lemma sum_matrix_cons (row : list Z) (px : list (list Z)) :
  sum_matrix (row :: px) = sum_list row + sum_matrix px.
Proof. reflexivity. Qed.

Lemma sum_matrix_pos (px : list (list Z)) :
  Forall (Forall (fun v => 0 <= v)) px ->
  Exists (Exists (fun v => v <> 0)) px ->
  0 < sum_matrix px.
Proof.
  intros Hall Hex. unfold sum_matrix. apply sum_list_pos.
  - apply Forall_map. eapply Forall_impl; [| exact Hall].
    intros row Hrow. apply sum_list_nonneg, Hrow.
  - apply Exists_exists in Hex. destruct Hex as (row & Hin & Hrow).
    apply Exists_exists. exists (sum_list row). split.
    + apply in_map, Hin.
    + rewrite Forall_forall in Hall. specialize (Hall row Hin).
      apply sum_list_pos; [exact Hall |].
      apply Exists_exists in Hrow. destruct Hrow as (v & Hv & Hne).
      apply Exists_exists. exists v. split; [exact Hv |].
      rewrite Forall_forall in Hall. specialize (Hall v Hv). lia.
Qed.

Lemma sum_matrix_nonneg (px : list (list Z)) :
  Forall (Forall (fun v => 0 <= v)) px -> 0 <= sum_matrix px.
Proof.
  intros Hall. unfold sum_matrix. apply sum_list_nonneg.
  apply Forall_map. eapply Forall_impl; [| exact Hall].
  intros row Hrow. apply sum_list_nonneg, Hrow.
Qed.

(** Adding two matrices of one shape. *)
Lemma matrix_add_shape (h w : nat) (a b : list (list Z)) :
  has_shape h w a -> has_shape h w b ->
  has_shape h w (map2 (map2 Z.add) a b) /\
  sum_matrix (map2 (map2 Z.add) a b) = sum_matrix a + sum_matrix b.
Proof.
  unfold has_shape. revert h b.
  induction a as [| ra a IH]; intros h [| rb b] [La Fa] [Lb Fb];
    cbn [length] in *; subst; try discriminate.
  - repeat split. constructor.
  - inversion Fa as [| ? ? Hra Fa']; inversion Fb as [| ? ? Hrb Fb']; subst.
    injection Lb as Lb.
    destruct (IH (length a) b (conj eq_refl Fa') (conj Lb Fb')) as [[L F] S].
    cbn [map2]. rewrite !sum_matrix_cons, S.
    rewrite sum_list_map2_add by congruence.
    repeat split.
    + cbn [length]. f_equal. exact L.
    + constructor; [| exact F]. rewrite length_map2; congruence.
    + lia.
Qed.

(** Entries of [enumerate]. *)
Lemma in_combine_seq {A} (l : list A) (s : nat) (i : Z) (a d : A) :
  In (i, a) (combine (map Z.of_nat (seq s (length l))) l) ->
  Z.of_nat s <= i < Z.of_nat (s + length l) /\
  nth (Z.to_nat i - s) l d = a.
Proof.
  revert s. induction l as [| b l IH]; intros s H; cbn in H; [contradiction |].
  destruct H as [H | H].
  - injection H as <- <-. split; [cbn; lia |].
    replace (Z.to_nat (Z.of_nat s) - s)%nat with 0%nat by lia. reflexivity.
  - apply IH in H. destruct H as [Hr Hn]. split; [cbn; lia |].
    replace (Z.to_nat i - s)%nat with (S (Z.to_nat i - S s)) by lia.
    exact Hn.
Qed.

Lemma in_enumerate {A} (l : list A) (i : Z) (a d : A) :
  In (i, a) (enumerate l) ->
  0 <= i < Z.of_nat (length l) /\ nth (Z.to_nat i) l d = a.
Proof.
  intros H. apply (in_combine_seq l 0 i a d) in H.
  rewrite Nat.sub_0_r in H. exact H.
Qed.

(** Reading every index of a list gives the list back. *)
Lemma map_nth_seq {A} (l : list A) (d : A) :
  map (fun i => nth i l d) (seq 0 (length l)) = l.
Proof.
  induction l as [| a l IH]; [reflexivity |].
  cbn [length seq map nth]. f_equal.
  rewrite <- seq_shift, map_map. exact IH.
Qed.

End ListFacts.

(** ** Drawing from a random source *)
Section RandomReturns.
Context {R : Randomness}.



End RandomReturns.

(** ** Drawing from a lawful random source *)
Section RandomFacts.
Context {R : Randomness} {L : RandomnessLaws R}.

Lemma randint_spec (a b : Z) (g : py_state) :
  a <= b ->
  exists r g', randint a b g = (inr r, g') /\ a <= r <= b.
Proof.
  intros Hab. unfold randint.
  destruct (Z.leb_spec (b + 1 - a) 0) as [H | H]; [lia |].
  pose proof (randbelow_range (b + 1 - a) g H) as Hr.
  destruct (randbelow (b + 1 - a) g) as [r g']. cbn in Hr.
  exists (a + r), g'. split; [reflexivity | lia].
Qed.

Lemma choice_spec {A} (l : list A) (g : py_state) :
  l <> [] ->
  exists x g', choice l g = (inr x, g') /\ In x l.
Proof.
  intros Hl. unfold choice. destruct l as [| d l']; [congruence |].
  set (l := d :: l') in *.
  assert (Hlen : 0 < Z.of_nat (length l)) by (cbn; lia).
  pose proof (randbelow_range _ g Hlen) as Hr.
  destruct (randbelow (Z.of_nat (length l)) g) as [r g']. cbn [fst] in Hr.
  exists (nth (Z.to_nat r) l d), g'. split; [reflexivity |].
  apply nth_In. lia.
Qed.


End RandomFacts.

(** ** [CropNonEmptyMaskIfExistsTorch]: masks *)
Section MaskFacts.
Import CropNonEmptyMaskIfExistsTorch.

Lemma has_shape_map {A B} (f : A -> B) (h w : nat) (px : list (list A)) :
  has_shape h w px -> has_shape h w (map (map f) px).
Proof.
  intros [Hl Hr]. split.
  - rewrite length_map. exact Hl.
  - apply Forall_map. eapply Forall_impl; [| exact Hr].
    intros row E. cbn. rewrite length_map. exact E.
Qed.

Lemma zero_where_eq_shape (v : Z) (h w : nat) (mask : Mask) :
  channels_have_shape h w mask -> channels_have_shape h w (zero_where_eq v mask).
Proof.
  destruct mask as [px | chs]; cbn; intros H.
  - apply has_shape_map, H.
  - apply Forall_map. eapply Forall_impl; [| exact H].
    intros c Hc. apply has_shape_map, Hc.
Qed.

(** Pixel properties that hold of 0 survive the removal of ignored values
    and channels. *)
Variable P : Z -> Prop.
Hypothesis P0 : P 0.

Lemma zero_where_eq_pixels (v : Z) (mask : Mask) :
  all_pixels P mask -> all_pixels P (zero_where_eq v mask).
Proof.
  assert (Hf : forall p, P p -> P (if p =? v then 0 else p)).
  { intros p Hp. destruct (p =? v); [exact P0 | exact Hp]. }
  assert (Hrow : forall row, Forall P row ->
                 Forall P (map (fun p => if p =? v then 0 else p) row)).
  { intros row H. apply Forall_map. eapply Forall_impl; [| exact H]. exact Hf. }
  assert (Hpx : forall px, Forall (Forall P) px ->
                Forall (Forall P)
                       (map (map (fun p => if p =? v then 0 else p)) px)).
  { intros px H. apply Forall_map. eapply Forall_impl; [| exact H]. exact Hrow. }
  destruct mask as [px | chs]; cbn; intros H.
  - apply Hpx, H.
  - apply Forall_map. eapply Forall_impl; [| exact H]. exact Hpx.
Qed.

Lemma fold_zero_where_eq (vs : list Z) (h w : nat) (mask : Mask) :
  channels_have_shape h w mask -> all_pixels P mask ->
  let mask' := fold_left (fun mask v => zero_where_eq v mask) vs mask in
  channels_have_shape h w mask' /\ all_pixels P mask'.
Proof.
  revert mask. induction vs as [| v vs IH]; intros mask Hs Hn; cbn.
  - split; assumption.
  - apply IH.
    + apply zero_where_eq_shape, Hs.
    + apply zero_where_eq_pixels, Hn.
Qed.

Lemma in_target_channels (n : nat) (ignored : list Z) (ch : nat) :
  In ch (target_channels n ignored) -> (ch < n)%nat.
Proof.
  unfold target_channels. intros H. apply filter_In in H.
  destruct H as [H _]. apply in_seq in H. lia.
Qed.

(** Zeroing ignored values and dropping ignored channels keeps the shape of
    the channels and such a property of the pixels. *)
Lemma apply_ignores_keeps (self : config) (h w : nat) (mask : Mask) :
  channels_have_shape h w mask -> all_pixels P mask ->
  channels_have_shape h w (apply_ignores self mask) /\
  all_pixels P (apply_ignores self mask).
Proof.
  intros Hs Hn. unfold apply_ignores.
  assert (H1 : let mask1 := match ignore_values self with
                 | Some vs => fold_left (fun mask v => zero_where_eq v mask) vs mask
                 | None => mask
                 end in
               channels_have_shape h w mask1 /\ all_pixels P mask1).
  { destruct (ignore_values self) as [vs |]; cbn.
    - apply fold_zero_where_eq; assumption.
    - split; assumption. }
  cbv zeta in H1.
  destruct (match ignore_values self with
            | Some vs => fold_left (fun mask v => zero_where_eq v mask) vs mask
            | None => mask
            end) as [px | chs]; [exact H1 |].
  destruct (ignore_channels self) as [ignored |]; [| exact H1].
  destruct H1 as [Hs1 Hn1]. cbn in *.
  rewrite Forall_forall in Hs1, Hn1.
  split; apply Forall_map, Forall_forall; intros ch Hch;
    apply in_target_channels in Hch;
    [apply Hs1 | apply Hn1]; apply nth_In; exact Hch.
Qed.

(** The channel sum keeps the shape and the total. *)
Lemma fold_matrix_add (h w : nat) (cs : list (list (list Z))) (c : list (list Z)) :
  has_shape h w c -> Forall (has_shape h w) cs ->
  has_shape h w (fold_left (map2 (map2 Z.add)) cs c) /\
  sum_matrix (fold_left (map2 (map2 Z.add)) cs c) =
    sum_matrix c + sum_list (map sum_matrix cs).
Proof.
  revert c. induction cs as [| c' cs IH]; intros c Hc Hcs; cbn [fold_left map].
  - split; [exact Hc | cbn; lia].
  - inversion Hcs as [| ? ? Hc' Hcs']; subst.
    destruct (matrix_add_shape h w c c' Hc Hc') as [Hs Hsum].
    destruct (IH _ Hs Hcs') as [Hs' Hsum'].
    split; [exact Hs' |]. rewrite Hsum', Hsum, sum_list_cons. lia.
Qed.

Lemma flatten_channels_shape (h w : nat) (mask : Mask) :
  channels_have_shape h w mask -> mask_sum mask <> 0 ->
  has_shape h w (flatten_channels mask) /\
  sum_matrix (flatten_channels mask) = mask_sum mask.
Proof.
  destruct mask as [px | chs];
    unfold channels_have_shape, flatten_channels, mask_sum; intros Hs Hsum.
  - split; [exact Hs | reflexivity].
  - destruct chs as [| c cs]; [cbn in Hsum; congruence |].
    inversion Hs as [| ? ? Hc Hcs]; subst.
    destruct (fold_matrix_add h w cs c Hc Hcs) as [H1 H2].
    cbn [sum_dim0 map]. split; [exact H1 |].
    rewrite H2, sum_list_cons. reflexivity.
Qed.

Lemma mask_sum_pos (mask : Mask) :
  all_pixels (fun p => 0 <= p) mask -> has_nonzero_pixel mask ->
  0 < mask_sum mask.
Proof.
  destruct mask as [px | chs]; cbn; intros Hn Hex.
  - apply sum_matrix_pos; assumption.
  - apply sum_list_pos.
    + apply Forall_map. eapply Forall_impl; [| exact Hn].
      intros c Hc. apply sum_matrix_nonneg, Hc.
    + apply Exists_exists in Hex. destruct Hex as (c & Hin & Hc).
      apply Exists_exists. exists (sum_matrix c). split; [apply in_map, Hin |].
      rewrite Forall_forall in Hn. apply sum_matrix_pos; auto.
Qed.

(** What [torch.nonzero] lists. *)
Lemma in_nonzero (px : list (list Z)) (y x : Z) :
  In (y, x) (nonzero px) ->
  0 <= y < Z.of_nat (length px) /\
  0 <= x < Z.of_nat (length (nth (Z.to_nat y) px [])) /\
  pixel px y x <> 0.
Proof.
  unfold nonzero, pixel. intros H.
  apply in_concat in H. destruct H as (l & Hl & Hin).
  apply in_map_iff in Hl. destruct Hl as ([y' row] & <- & Hrow).
  apply (in_enumerate px y' row []) in Hrow. destruct Hrow as [Hy Erow].
  cbn [fst snd] in Hin.
  apply in_map_iff in Hin. destruct Hin as ([x' v] & E & Hv).
  cbn [fst] in E. injection E as <- <-.
  apply filter_In in Hv. destruct Hv as [Hv Hne]. cbn [snd] in Hne.
  apply (in_enumerate row x' v 0) in Hv. destruct Hv as [Hx Ev].
  apply negb_true_iff, Z.eqb_neq in Hne.
  rewrite Erow, Ev. repeat split; lia.
Qed.

Lemma filter_nonzero_nil (idx row : list Z) :
  length idx = length row ->
  filter (fun xv : Z * Z => negb (snd xv =? 0)) (combine idx row) = [] ->
  sum_list row = 0.
Proof.
  revert idx. induction row as [| v row IH]; intros [| i idx] Hlen H;
    try discriminate; [reflexivity |].
  cbn [combine filter snd] in H.
  destruct (Z.eqb_spec v 0) as [-> | Hne]; cbn [negb] in H; [| discriminate].
  rewrite sum_list_cons, (IH idx); [lia | cbn in Hlen; lia | exact H].
Qed.

Lemma nonzero_rows_nil (idx : list Z) (px : list (list Z)) :
  length idx = length px ->
  concat (map (fun yr : Z * list Z =>
                 map (fun xv : Z * Z => (fst yr, fst xv))
                     (filter (fun xv : Z * Z => negb (snd xv =? 0))
                             (enumerate (snd yr))))
              (combine idx px)) = [] ->
  sum_matrix px = 0.
Proof.
  revert idx. induction px as [| row px IH]; intros [| i idx] Hlen H;
    try discriminate; [reflexivity |].
  cbn [combine map concat fst snd] in H.
  apply app_eq_nil in H. destruct H as [Hrow Hrest].
  apply map_eq_nil in Hrow.
  rewrite sum_matrix_cons, (IH idx); [| cbn in Hlen; lia | exact Hrest].
  rewrite (filter_nonzero_nil (map Z.of_nat (seq 0 (length row))) row);
    [lia | | exact Hrow].
  rewrite length_map, length_seq. reflexivity.
Qed.

(** A matrix whose sum is not zero has a non-zero element to list. *)
Lemma nonzero_not_nil (px : list (list Z)) :
  sum_matrix px <> 0 -> nonzero px <> [].
Proof.
  intros Hsum Hnil. apply Hsum.
  apply (nonzero_rows_nil (map Z.of_nat (seq 0 (length px)))).
  - rewrite length_map, length_seq. reflexivity.
  - exact Hnil.
Qed.

Lemma shape_hw_of_shape (h w : nat) (mask : Mask) :
  mask_has_shape h w mask -> (0 < h)%nat ->
  shape_hw mask = (Z.of_nat h, Z.of_nat w).
Proof.
  assert (H2 : forall px : list (list Z), has_shape h w px -> (0 < h)%nat ->
               shape2 px = (Z.of_nat h, Z.of_nat w)).
  { intros px [Hl Hr] Hh. unfold shape2.
    destruct px as [| row px]; [cbn in Hl; lia |].
    inversion Hr; subst. cbn [hd]. congruence. }
  destruct mask as [px | chs]; cbn; intros [Hs Hne] Hh.
  - apply H2; assumption.
  - destruct chs as [| c cs]; [congruence |].
    inversion Hs; subst. cbn [hd]. apply H2; assumption.
Qed.


Lemma clamp_bounds (v lo hi : Z) : lo <= hi -> lo <= clamp v lo hi <= hi.
Proof. unfold clamp. lia. Qed.

Lemma all_pixels_True (mask : Mask) : all_pixels (fun _ => True) mask.
Proof.
  assert (H1 : forall row : list Z, Forall (fun _ => True) row).
  { intros row. apply Forall_forall. intros; exact I. }
  assert (H2 : forall px : list (list Z), Forall (Forall (fun _ => True)) px).
  { intros px. apply Forall_forall. intros; apply H1. }
  destruct mask as [px | chs]; cbn; [apply H2 |].
  apply Forall_forall. intros; apply H2.
Qed.

End MaskFacts.

(** ** [CropNonEmptyMaskIfExistsTorch]: the crop around a mask pixel *)
Section CropNonEmptyMask.
Import CropNonEmptyMaskIfExistsTorch.
Context {R : Randomness} {L : RandomnessLaws R}.

Lemma crop_fits (self : config) (mh mw : Z) :
  height self <= mh -> width self <= mw ->
  (height self >? mh) || (width self >? mw) = false.
Proof.
  intros Hh Hw. rewrite !Z.gtb_ltb.
  destruct (Z.ltb_spec mh (height self)); [lia |].
  destruct (Z.ltb_spec mw (width self)); [lia | reflexivity].
Qed.


(** The corner drawn around a non-zero pixel, when the mask sum is not zero. *)
Lemma sample_corner_around_pixel (self : config) (filt : Mask) (mh mw : nat)
    (g : py_state) :
  channels_have_shape mh mw filt ->
  mask_sum filt <> 0 ->
  0 < height self <= Z.of_nat mh -> 0 < width self <= Z.of_nat mw ->
  exists y x g1 xm ym g',
    choice (nonzero (flatten_channels filt)) g = (inr (y, x), g1) /\
    pixel (flatten_channels filt) y x <> 0 /\
    sample_corner self filt (Z.of_nat mh) (Z.of_nat mw) g = (inr (xm, ym), g') /\
    xm <= x < xm + width self /\ ym <= y < ym + height self /\
    0 <= xm /\ xm + width self <= Z.of_nat mw /\
    0 <= ym /\ ym + height self <= Z.of_nat mh.
Proof.
  intros Hs Hpos Hh Hw.
  destruct (flatten_channels_shape mh mw filt Hs Hpos) as [[Hlen Hrows] Hsum].
  assert (Hnz : nonzero (flatten_channels filt) <> []).
  { apply nonzero_not_nil. lia. }
  destruct (choice_spec _ g Hnz) as ([y x] & g1 & Ec & Hin).
  apply in_nonzero in Hin. destruct Hin as (Hy & Hx & Hpx).
  assert (Hrow : length (nth (Z.to_nat y) (flatten_channels filt) []) = mw).
  { rewrite Forall_forall in Hrows. apply Hrows, nth_In. lia. }
  rewrite Hrow in Hx. rewrite Hlen in Hy.
  destruct (randint_spec 0 (width self - 1) g1 ltac:(lia)) as (rx & g2 & Ex & Hrx).
  destruct (randint_spec 0 (height self - 1) g2 ltac:(lia)) as (ry & g3 & Ey & Hry).
  exists y, x, g1,
    (clamp (x - rx) 0 (Z.of_nat mw - width self)),
    (clamp (y - ry) 0 (Z.of_nat mh - height self)), g3.
  split; [exact Ec |]. split; [exact Hpx |]. split.
  - unfold sample_corner.
    destruct (Z.eqb_spec (mask_sum filt) 0) as [E0 | _]; [lia |].
    unfold bind. rewrite Ec, Ex, Ey. reflexivity.
  - unfold clamp. lia.
Qed.

(** C5, as amended. For a mask of [mh] by [mw] pixels whose sum, once the
    ignored values and channels are removed, is not zero, and a crop size
    that is positive and no larger than the mask, the sampler returns a
    rectangle with [x_max = x_min + width] and [y_max = y_min + height] that
    contains the non-zero pixel [(y, x)] it drew and lies within the mask.
    A mask of non-negative pixels that has a non-zero pixel left is such a
    mask. *)
Theorem crop_contains_sampled_pixel (self : config) (mask : Mask) (mh mw : nat)
    (g : py_state) :
  mask_has_shape mh mw mask ->
  0 < height self <= Z.of_nat mh -> 0 < width self <= Z.of_nat mw ->
  (mask_sum (apply_ignores self mask) <> 0 ->
   exists y x g1 c g',
     choice (nonzero (flatten_channels (apply_ignores self mask))) g
       = (inr (y, x), g1) /\
     pixel (flatten_channels (apply_ignores self mask)) y x <> 0 /\
     get_params_dependent_on_targets self mask g = (inr c, g') /\
     x_max c = x_min c + width self /\ y_max c = y_min c + height self /\
     x_min c <= x < x_max c /\ y_min c <= y < y_max c /\
     0 <= x_min c /\ x_max c <= Z.of_nat mw /\
     0 <= y_min c /\ y_max c <= Z.of_nat mh) /\
  (all_pixels (fun p => 0 <= p) mask ->
   has_nonzero_pixel (apply_ignores self mask) ->
   mask_sum (apply_ignores self mask) <> 0).
Proof.
  intros Hshape Hh Hw. split.
  - intros Hsum.
    destruct (apply_ignores_keeps (fun _ => True) I self mh mw mask
                (proj1 Hshape) (all_pixels_True mask)) as [Hs' _].
    destruct (sample_corner_around_pixel self _ mh mw g Hs' Hsum Hh Hw)
      as (y & x & g1 & xm & ym & g' & Ec & Hpx & Es & Hb).
    exists y, x, g1,
      {| x_min := xm; x_max := xm + width self;
         y_min := ym; y_max := ym + height self |}, g'.
    split; [exact Ec |]. split; [exact Hpx |]. split.
    + unfold get_params_dependent_on_targets.
      rewrite (shape_hw_of_shape mh mw mask Hshape) by lia.
      rewrite crop_fits by lia.
      unfold bind. rewrite Es. reflexivity.
    + cbn. lia.
  - intros Hn Hex.
    destruct (apply_ignores_keeps (fun p => 0 <= p) (Z.le_refl 0) self mh mw mask
                (proj1 Hshape) Hn) as [_ Hn'].
    pose proof (mask_sum_pos _ Hn' Hex). lia.
Qed.

End CropNonEmptyMask.

(** ** [RandomGridShuffleTorch]: closed forms of the grid arrays *)
Section GridArrays.
Import RandomGridShuffleTorch.

Lemma nth_map_seq {A} (f : nat -> A) (n i : nat) (d : A) :
  (i < n)%nat -> nth i (map f (seq 0 n)) d = f i.
Proof.
  intros Hi.
  rewrite (nth_indep _ d (f 0%nat)) by (rewrite length_map, length_seq; exact Hi).
  rewrite map_nth, seq_nth by exact Hi. reflexivity.
Qed.

Lemma removelast_map_seq {A} (f : nat -> A) (n : nat) :
  removelast (map f (seq 0 (S n))) = map f (seq 0 n).
Proof.
  rewrite seq_S, map_app. cbn [map]. apply removelast_last.
Qed.

Lemma tl_map_seq {A} (f : nat -> A) (n : nat) :
  tl (map f (seq 0 (S n))) = map (fun i => f (S i)) (seq 0 n).
Proof.
  cbn [seq map tl]. rewrite <- seq_shift, map_map. reflexivity.
Qed.

Lemma map2_map {A B C D} (op : B -> C -> D) (f : A -> B) (g : A -> C) (l : list A) :
  map2 op (map f l) (map g l) = map (fun a => op (f a) (g a)) l.
Proof.
  induction l as [| a l IH]; cbn; [reflexivity |]. f_equal. exact IH.
Qed.

Lemma at2_tabulate {A} (n m : nat) (f : nat -> nat -> A) (d : A) (i j : nat) :
  (i < n)%nat -> (j < m)%nat -> at2 d (tabulate n m f) (i, j) = f i j.
Proof.
  intros Hi Hj. unfold at2, tabulate. cbn [fst snd].
  rewrite nth_map_seq by exact Hi. apply nth_map_seq, Hj.
Qed.



Lemma drop_last2_tabulate {A} (n m : nat) (f : nat -> nat -> A) :
  drop_last2 (tabulate (S n) (S m) f) = tabulate n m f.
Proof.
  unfold drop_last2, tabulate. rewrite removelast_map_seq, map_map.
  apply map_ext. intros i. apply removelast_map_seq.
Qed.

Lemma drop_first2_tabulate {A} (n m : nat) (f : nat -> nat -> A) :
  drop_first2 (tabulate (S n) (S m) f) = tabulate n m (fun i j => f (S i) (S j)).
Proof.
  unfold drop_first2, tabulate. rewrite tl_map_seq, map_map.
  apply map_ext. intros i. apply tl_map_seq.
Qed.

Lemma map2_tabulate {A B C} (op : A -> B -> C) (n m : nat)
    (f : nat -> nat -> A) (g : nat -> nat -> B) :
  map2 (map2 op) (tabulate n m f) (tabulate n m g)
  = tabulate n m (fun i j => op (f i j) (g i j)).
Proof.
  unfold tabulate. rewrite map2_map. apply map_ext. intros i. apply map2_map.
Qed.


Lemma meshgrid_tabulate (a b : nat -> Z) (n m : nat) :
  meshgrid_ij (map a (seq 0 n)) (map b (seq 0 m))
  = (tabulate n m (fun i _ => a i), tabulate n m (fun _ j => b j)).
Proof.
  unfold meshgrid_ij, tabulate. f_equal.
  - rewrite map_map. apply map_ext. intros i. rewrite map_map. reflexivity.
  - rewrite map_map. reflexivity.
Qed.

(** The arrays of the grid, entry by entry, for split points [a 0 .. a n] and
    [b 0 .. b m]. *)
Lemma grid_of_splits_closed_form (a b : nat -> Z) (n m : nat) :
  grid_of_splits (map a (seq 0 (S n))) (map b (seq 0 (S m))) =
  {| index_height_matrix := tabulate n m (fun i _ => a i);
     index_width_matrix := tabulate n m (fun _ j => b j);
     height_tile_sizes := tabulate n m (fun i _ => a (S i) - a i);
     width_tile_sizes := tabulate n m (fun _ j => b (S j) - b j);
     tiles_sizes := tabulate n m (fun i j => (a (S i) - a i, b (S j) - b j)) |}.
Proof.
  unfold grid_of_splits. rewrite meshgrid_tabulate.
  unfold matrix_sub, stack2.
  rewrite !drop_last2_tabulate, !drop_first2_tabulate, !map2_tabulate.
  reflexivity.
Qed.


End GridArrays.

(** ** [RandomGridShuffleTorch]: the boundaries of the cells *)
Section Boundaries.
Import RandomGridShuffleTorch.












End Boundaries.

(** ** [RandomGridShuffleTorch]: the grid tiles the image *)
Section Tiling.
Import RandomGridShuffleTorch.

(** A sum of consecutive differences telescopes. *)
Lemma sum_list_telescope (b : nat -> Z) (n : nat) :
  sum_list (map (fun i => b (S i) - b i) (seq 0 n)) = b n - b 0%nat.
Proof.
  induction n as [| n IH]; [cbn; lia |].
  rewrite seq_S, map_app, sum_list_app, IH. cbn. lia.
Qed.

Lemma column_tabulate {A} (n m : nat) (f : nat -> nat -> A) (d : A) (j : nat) :
  (j < m)%nat ->
  map (fun row => nth j row d) (tabulate n m f) = map (fun i => f i j) (seq 0 n).
Proof.
  intros Hj. unfold tabulate. rewrite map_map. apply map_ext.
  intros i. apply nth_map_seq, Hj.
Qed.

Lemma row_tabulate {A} (n m : nat) (f : nat -> nat -> A) (i : nat) :
  (i < n)%nat -> nth i (tabulate n m f) [] = map (fun j => f i j) (seq 0 m).
Proof.
  intros Hi. unfold tabulate.
  apply (nth_map_seq (fun i => map (fun j => f i j) (seq 0 m)) n i []), Hi.
Qed.

(** A value between the first and the last boundary lies in one cell. *)
Lemma boundary_cell_exists (b : nat -> Z) (n : nat) (y : Z) :
  b 0%nat <= y < b n -> exists i, (i < n)%nat /\ b i <= y < b (S i).
Proof.
  induction n as [| n IH]; intros Hy; [lia |].
  destruct (Z.lt_ge_cases y (b n)) as [Hlt | Hge].
  - destruct (IH ltac:(lia)) as (i & Hi & Hb). exists i. split; [lia | exact Hb].
  - exists n. split; [lia | lia].
Qed.




Lemma splits_mono (a : nat -> Z) (n i j : nat) :
  (forall k, (k < n)%nat -> a k <= a (S k)) ->
  (i <= j <= n)%nat -> a i <= a j.
Proof.
  intros Hstep [Hij Hjn]. induction j as [| j IH].
  - replace i with 0%nat by lia. lia.
  - destruct (Nat.eq_dec i (S j)) as [-> | Hne]; [lia |].
    specialize (IH ltac:(lia) ltac:(lia)).
    specialize (Hstep j ltac:(lia)). lia.
Qed.

(** The tiling does not depend on how the split points are rounded: any
    split points that start at 0, end at the image side and never decrease
    give tiles whose heights add up to the image height in each column, whose
    widths add up to the image width in each row, and that hold every pixel
    exactly once. *)
Theorem grid_of_splits_tiles (height_split width_split : list Z) (n m : nat)
    (height width : Z) :
  length height_split = S n -> length width_split = S m ->
  nth 0 height_split 0 = 0 -> nth n height_split 0 = height ->
  nth 0 width_split 0 = 0 -> nth m width_split 0 = width ->
  (forall i, (i < n)%nat -> nth i height_split 0 <= nth (S i) height_split 0) ->
  (forall j, (j < m)%nat -> nth j width_split 0 <= nth (S j) width_split 0) ->
  let g := grid_of_splits height_split width_split in
  (forall j, (j < m)%nat ->
     sum_list (map (fun row => nth j row 0) (height_tile_sizes g)) = height) /\
  (forall i, (i < n)%nat ->
     sum_list (nth i (width_tile_sizes g) []) = width) /\
  (forall y x, 0 <= y < height -> 0 <= x < width ->
     exists i j, (i < n)%nat /\ (j < m)%nat /\ in_tile g (i, j) y x /\
       forall i' j', (i' < n)%nat -> (j' < m)%nat ->
         in_tile g (i', j') y x -> (i', j') = (i, j)).
Proof.
  intros Lh Lw Hh0 Hhn Hw0 Hwm Hhs Hws g. subst g.
  set (a := fun i => nth i height_split 0) in *.
  set (b := fun j => nth j width_split 0) in *.
  rewrite <- (map_nth_seq height_split 0), <- (map_nth_seq width_split 0).
  rewrite Lh, Lw. fold a b. rewrite grid_of_splits_closed_form.
  cbn [height_tile_sizes width_tile_sizes].
  split.
  { intros j Hj. rewrite column_tabulate by exact Hj.
    rewrite (sum_list_telescope a). unfold a. lia. }
  split.
  { intros i Hi. rewrite row_tabulate by exact Hi.
    rewrite (sum_list_telescope b). unfold b. lia. }
  intros y x Hy Hx.
  destruct (boundary_cell_exists a n y) as (i & Hi & Hiy); [unfold a; lia |].
  destruct (boundary_cell_exists b m x) as (j & Hj & Hjx); [unfold b; lia |].
  exists i, j. split; [exact Hi |]. split; [exact Hj |].
  unfold in_tile. cbn [index_height_matrix index_width_matrix
    height_tile_sizes width_tile_sizes].
  split.
  - rewrite !at2_tabulate by assumption. lia.
  - intros i' j' Hi' Hj'. rewrite !at2_tabulate by assumption.
    intros [Hty Htx]. f_equal.
    + destruct (Nat.lt_trichotomy i' i) as [Hlt | [E | Hgt]]; [| exact E |].
      * pose proof (splits_mono a n (S i') i Hhs ltac:(lia)). lia.
      * pose proof (splits_mono a n (S i) i' Hhs ltac:(lia)). lia.
    + destruct (Nat.lt_trichotomy j' j) as [Hlt | [E | Hgt]]; [| exact E |].
      * pose proof (splits_mono b m (S j') j Hws ltac:(lia)). lia.
      * pose proof (splits_mono b m (S j) j' Hws ltac:(lia)). lia.
Qed.

Lemma grid_of_splits_tiles_witness :
  let g := grid_of_splits [0; 2; 5] [0; 2; 4; 7] in
  (forall j, (j < 3)%nat ->
     sum_list (map (fun row => nth j row 0) (height_tile_sizes g)) = 5) /\
  (forall i, (i < 2)%nat -> sum_list (nth i (width_tile_sizes g) []) = 7).
Proof.
  assert (Hh : forall i, (i < 2)%nat -> nth i [0; 2; 5] 0 <= nth (S i) [0; 2; 5] 0).
  { intros [| [| i]] Hi; cbn; lia. }
  assert (Hw : forall j, (j < 3)%nat ->
                 nth j [0; 2; 4; 7] 0 <= nth (S j) [0; 2; 4; 7] 0).
  { intros [| [| [| j]]] Hj; cbn; lia. }
  pose proof (grid_of_splits_tiles [0; 2; 5] [0; 2; 4; 7] 2 3 5 7
                eq_refl eq_refl eq_refl eq_refl eq_refl eq_refl Hh Hw)
    as (Hcol & Hrow & _).
  cbv zeta. split; [exact Hcol | exact Hrow].
Defined.

End Tiling.

(** ** [RandomGridShuffleTorch]: masked reads and writes *)
Section MaskedArrays.
Import RandomGridShuffleTorch.












End MaskedArrays.

(** ** [RandomGridShuffleTorch]: writing a permutation under a mask *)
Section MaskedPermutation.
Import RandomGridShuffleTorch.












End MaskedPermutation.

(** ** [RandomGridShuffleTorch]: the loop over the size groups *)
Section ShuffleLoop.
Import RandomGridShuffleTorch.
Context {R : Randomness} {L : RandomnessLaws R}.
Variables (n m : nat) (sizef : nat -> nat -> Z * Z).


















End ShuffleLoop.

(** ** [RandomGridShuffleTorch]: the tile mapping *)
Section GridShuffle.
Import RandomGridShuffleTorch.
Context {R : Randomness} {L : RandomnessLaws R}.










End GridShuffle.

(** ** Determinism and configuration errors *)
Section Errors.
Context {R : Randomness}.









End Errors.

(** ** Runs on concrete inputs *)
Section Runs.
Import RandomGridShuffleTorch.

Lemma crop_contains_sampled_pixel_witness :
  let self := {| CropNonEmptyMaskIfExistsTorch.height := 2;
                 CropNonEmptyMaskIfExistsTorch.width := 2;
                 CropNonEmptyMaskIfExistsTorch.ignore_values := Some [5];
                 CropNonEmptyMaskIfExistsTorch.ignore_channels := None |} in
  let mask := CropNonEmptyMaskIfExistsTorch.Mask2
                [[0; 0; 0; 0]; [0; 5; 0; 0]; [0; 0; 0; 1]] in
  CropNonEmptyMaskIfExistsTorch.mask_has_shape 3 4 mask /\
  CropNonEmptyMaskIfExistsTorch.mask_sum
    (CropNonEmptyMaskIfExistsTorch.apply_ignores self mask) <> 0 /\
  exists y x g1 c g',
    choice (R := lcg_randomness)
      (CropNonEmptyMaskIfExistsTorch.nonzero
         (CropNonEmptyMaskIfExistsTorch.flatten_channels
            (CropNonEmptyMaskIfExistsTorch.apply_ignores self mask))) 42
      = (inr (y, x), g1) /\
    CropNonEmptyMaskIfExistsTorch.get_params_dependent_on_targets
      (R := lcg_randomness) self mask 42 = (inr c, g') /\
    CropNonEmptyMaskIfExistsTorch.x_min c <= x
      < CropNonEmptyMaskIfExistsTorch.x_max c /\
    CropNonEmptyMaskIfExistsTorch.y_min c <= y
      < CropNonEmptyMaskIfExistsTorch.y_max c.
Proof.
  intros self mask.
  assert (Hshape : CropNonEmptyMaskIfExistsTorch.mask_has_shape 3 4 mask).
  { split; [| exact I]. split; [reflexivity |]. repeat constructor. }
  assert (Hsum : CropNonEmptyMaskIfExistsTorch.mask_sum
                   (CropNonEmptyMaskIfExistsTorch.apply_ignores self mask) <> 0).
  { vm_compute. discriminate. }
  split; [exact Hshape |]. split; [exact Hsum |].
  destruct (proj1 (crop_contains_sampled_pixel
              (R := lcg_randomness) (L := lcg_randomness_laws) self mask 3 4 42
              Hshape ltac:(unfold self; cbn; lia) ltac:(unfold self; cbn; lia))
              Hsum)
    as (y & x & g1 & c & g' & Ec & _ & Eg & _ & _ & Hx & Hy & _).
  exists y, x, g1, c, g'. repeat split; try assumption; lia.
Defined.

(** C5, as stated, fails on a mask with pixels of both signs: the mask
    [[1, -1, 0]] has non-zero pixels but sums to zero, so the corner is drawn
    as for an empty mask, and the 1 by 1 crop returned here holds the zero
    pixel only. *)
Lemma signed_mask_crop_misses :
  let self := {| CropNonEmptyMaskIfExistsTorch.height := 1;
                 CropNonEmptyMaskIfExistsTorch.width := 1;
                 CropNonEmptyMaskIfExistsTorch.ignore_values := None;
                 CropNonEmptyMaskIfExistsTorch.ignore_channels := None |} in
  let mask := CropNonEmptyMaskIfExistsTorch.Mask2 [[1; -1; 0]] in
  CropNonEmptyMaskIfExistsTorch.mask_has_shape 1 3 mask /\
  CropNonEmptyMaskIfExistsTorch.has_nonzero_pixel
    (CropNonEmptyMaskIfExistsTorch.apply_ignores self mask) /\
  exists c g',
    CropNonEmptyMaskIfExistsTorch.get_params_dependent_on_targets
      (R := lcg_randomness) self mask 1 = (inr c, g') /\
    ~ (exists y x,
         CropNonEmptyMaskIfExistsTorch.pixel
           (CropNonEmptyMaskIfExistsTorch.flatten_channels
              (CropNonEmptyMaskIfExistsTorch.apply_ignores self mask)) y x <> 0 /\
         CropNonEmptyMaskIfExistsTorch.x_min c <= x
           < CropNonEmptyMaskIfExistsTorch.x_max c /\
         CropNonEmptyMaskIfExistsTorch.y_min c <= y
           < CropNonEmptyMaskIfExistsTorch.y_max c).
Proof.
  cbv zeta.
  split. { split; [| exact I]. split; [reflexivity |]. repeat constructor. }
  split. { cbn. apply Exists_cons_hd, Exists_cons_hd. discriminate. }
  eexists. eexists. split; [vm_compute; reflexivity |].
  cbn. intros (y & x & Hpx & Hx & Hy).
  assert (x = 2) by lia. assert (y = 0) by lia. subst.
  apply Hpx. reflexivity.
Qed.




End Runs.

(** ** [RandomGridShuffleTorch]: the blocks of the returned rows *)
Section TileBlocks.
Import RandomGridShuffleTorch.
Context {R : Randomness} {L : RandomnessLaws R}.







End TileBlocks.


(** ** [CropNonEmptyMaskIfExistsTorch]: every crop lies in the mask *)
Section CropBounds.
Import CropNonEmptyMaskIfExistsTorch.
Context {R : Randomness} {L : RandomnessLaws R}.

(** Whether the mask is empty or not, a positive crop size that fits a
    well-shaped mask gives a rectangle of exactly that size inside the mask. *)
Theorem crop_within_mask (self : config) (mask : Mask) (mh mw : nat)
    (g : py_state) :
  mask_has_shape mh mw mask ->
  0 < height self <= Z.of_nat mh -> 0 < width self <= Z.of_nat mw ->
  exists c g',
    get_params_dependent_on_targets self mask g = (inr c, g') /\
    0 <= x_min c /\ x_max c = x_min c + width self /\ x_max c <= Z.of_nat mw /\
    0 <= y_min c /\ y_max c = y_min c + height self /\ y_max c <= Z.of_nat mh.
Proof.
  intros Hshape Hh Hw.
  destruct (apply_ignores_keeps (fun _ => True) I self mh mw mask
              (proj1 Hshape) (all_pixels_True mask)) as [Hs' _].
  assert (Hcorner : exists xm ym g',
            sample_corner self (apply_ignores self mask)
              (Z.of_nat mh) (Z.of_nat mw) g = (inr (xm, ym), g') /\
            0 <= xm <= Z.of_nat mw - width self /\
            0 <= ym <= Z.of_nat mh - height self).
  { destruct (Z.eq_dec (mask_sum (apply_ignores self mask)) 0) as [E | E].
    - destruct (randint_spec 0 (Z.of_nat mw - width self) g ltac:(lia))
        as (xm & g1 & Ex & Hx).
      destruct (randint_spec 0 (Z.of_nat mh - height self) g1 ltac:(lia))
        as (ym & g2 & Ey & Hy).
      exists xm, ym, g2. split; [| lia].
      unfold sample_corner. rewrite E. cbn [Z.eqb]. unfold bind.
      rewrite Ex, Ey. reflexivity.
    - destruct (sample_corner_around_pixel self _ mh mw g Hs' E Hh Hw)
        as (y & x & g1 & xm & ym & g' & _ & _ & Es & Hb).
      exists xm, ym, g'. split; [exact Es | lia]. }
  destruct Hcorner as (xm & ym & g' & Es & Hx & Hy).
  exists {| x_min := xm; x_max := xm + width self;
            y_min := ym; y_max := ym + height self |}, g'.
  split; [| cbn; lia].
  unfold get_params_dependent_on_targets.
  rewrite (shape_hw_of_shape mh mw mask Hshape) by lia.
  rewrite crop_fits by lia. unfold bind. rewrite Es. reflexivity.
Qed.

End CropBounds.

Lemma crop_within_mask_witness :
  let self := {| CropNonEmptyMaskIfExistsTorch.height := 2;
                 CropNonEmptyMaskIfExistsTorch.width := 3;
                 CropNonEmptyMaskIfExistsTorch.ignore_values := Some [5];
                 CropNonEmptyMaskIfExistsTorch.ignore_channels := None |} in
  let mask := CropNonEmptyMaskIfExistsTorch.Mask2
                [[0; 0; 0; 0]; [0; 5; 0; 0]; [0; 0; 0; 0]] in
  CropNonEmptyMaskIfExistsTorch.mask_has_shape 3 4 mask /\
  exists c g',
    CropNonEmptyMaskIfExistsTorch.get_params_dependent_on_targets
      (R := lcg_randomness) self mask 42 = (inr c, g') /\
    0 <= CropNonEmptyMaskIfExistsTorch.x_min c /\
    CropNonEmptyMaskIfExistsTorch.x_max c <= 4 /\
    0 <= CropNonEmptyMaskIfExistsTorch.y_min c /\
    CropNonEmptyMaskIfExistsTorch.y_max c <= 3.
Proof.
  intros self mask.
  assert (Hshape : CropNonEmptyMaskIfExistsTorch.mask_has_shape 3 4 mask).
  { split; [| exact I]. split; [reflexivity |]. repeat constructor. }
  split; [exact Hshape |].
  destruct (crop_within_mask (R := lcg_randomness) (L := lcg_randomness_laws)
              self mask 3 4 42 Hshape
              ltac:(unfold self; cbn; lia) ltac:(unfold self; cbn; lia))
    as (c & g' & E & Hx0 & _ & Hx1 & Hy0 & _ & Hy1).
  exists c, g'. repeat split; assumption.
Defined.

(** ** [CropNonEmptyMaskIfExistsTorch]: which pixels can be drawn *)
Section IgnoredPixels.
Import CropNonEmptyMaskIfExistsTorch.

Lemma kept_value_step (v : Z) (vs : list Z) (p : Z) :
  kept_value vs (if p =? v then 0 else p) = kept_value (v :: vs) p.
Proof.
  unfold kept_value. cbn [existsb].
  destruct (Z.eqb_spec p v) as [-> | Hne]; cbn [orb]; [| reflexivity].
  destruct (existsb (Z.eqb 0) vs); reflexivity.
Qed.

Lemma kept_value_nonzero (vs : list Z) (p : Z) :
  kept_value vs p <> 0 <-> p <> 0 /\ ~ In p vs.
Proof.
  unfold kept_value. destruct (existsb (Z.eqb p) vs) eqn:E.
  - apply existsb_exists in E. destruct E as (v & Hv & Ev).
    apply Z.eqb_eq in Ev. subst v. split; [congruence | tauto].
  - split; [| tauto]. intros Hp. split; [exact Hp |]. intros Hin.
    assert (existsb (Z.eqb p) vs = true); [| congruence].
    apply existsb_exists. exists p. split; [exact Hin | apply Z.eqb_refl].
Qed.

Lemma fold_zero_where_eq_2d (vs : list Z) (px : list (list Z)) :
  fold_left (fun mask v => zero_where_eq v mask) vs (Mask2 px)
  = Mask2 (map (map (kept_value vs)) px).
Proof.
  revert px. induction vs as [| v vs IH]; intros px; cbn [fold_left].
  - f_equal. rewrite <- (map_id px) at 1. apply map_ext. intros row.
    rewrite <- (map_id row) at 1. apply map_ext. intros p. reflexivity.
  - cbn [zero_where_eq]. rewrite IH, map_map. f_equal. apply map_ext.
    intros row. rewrite map_map. apply map_ext. intros p. apply kept_value_step.
Qed.

Lemma fold_zero_where_eq_3d (vs : list Z) (chs : list (list (list Z))) :
  fold_left (fun mask v => zero_where_eq v mask) vs (Mask3 chs)
  = Mask3 (map (map (map (kept_value vs))) chs).
Proof.
  revert chs. induction vs as [| v vs IH]; intros chs; cbn [fold_left].
  - f_equal. rewrite <- (map_id chs) at 1. apply map_ext. intros c.
    rewrite <- (map_id c) at 1. apply map_ext. intros row.
    rewrite <- (map_id row) at 1. apply map_ext. intros p. reflexivity.
  - cbn [zero_where_eq]. rewrite IH, map_map. f_equal. apply map_ext.
    intros c. rewrite map_map. apply map_ext. intros row.
    rewrite map_map. apply map_ext. intros p. apply kept_value_step.
Qed.

Lemma pixel_map (f : Z -> Z) (px : list (list Z)) (y x : Z) :
  0 <= y < Z.of_nat (length px) ->
  0 <= x < Z.of_nat (length (nth (Z.to_nat y) px [])) ->
  pixel (map (map f) px) y x = f (pixel px y x).
Proof.
  intros Hy Hx. unfold pixel.
  change (@nil Z) with (map f []) at 1. rewrite map_nth.
  rewrite (nth_indep _ 0 (f 0)) by (rewrite length_map; lia).
  apply map_nth.
Qed.

Lemma in_enumerate_index {A} (l : list A) (i : nat) (d : A) :
  (i < length l)%nat -> In (Z.of_nat i, nth i l d) (enumerate l).
Proof.
  unfold enumerate.
  assert (H : forall s, (i < length l)%nat ->
            In (Z.of_nat (s + i), nth i l d)
               (combine (map Z.of_nat (seq s (length l))) l)).
  { revert i. induction l as [| a l IH]; intros i s Hi; cbn in Hi; [lia |].
    cbn [length seq map combine]. destruct i as [| i].
    - left. rewrite Nat.add_0_r. reflexivity.
    - right. replace (s + S i)%nat with (S s + i)%nat by lia.
      apply IH. lia. }
  intros Hi. apply (H 0%nat Hi).
Qed.

Lemma nonzero_iff (px : list (list Z)) (y x : Z) :
  In (y, x) (nonzero px) <->
  0 <= y < Z.of_nat (length px) /\
  0 <= x < Z.of_nat (length (nth (Z.to_nat y) px [])) /\
  pixel px y x <> 0.
Proof.
  split; [apply in_nonzero |].
  intros (Hy & Hx & Hpx). unfold nonzero. apply in_concat.
  exists (map (fun xv : Z * Z => (y, fst xv))
              (filter (fun xv : Z * Z => negb (snd xv =? 0))
                      (enumerate (nth (Z.to_nat y) px [])))).
  split.
  - apply in_map_iff. exists (y, nth (Z.to_nat y) px []). split; [reflexivity |].
    rewrite <- (Z2Nat.id y) at 1 by lia. apply in_enumerate_index. lia.
  - apply in_map_iff. exists (x, pixel px y x). split; [reflexivity |].
    apply filter_In. split.
    + unfold pixel. rewrite <- (Z2Nat.id x) at 1 by lia.
      apply in_enumerate_index. lia.
    + cbn [snd]. apply negb_true_iff, Z.eqb_neq, Hpx.
Qed.

Lemma nth_map2 {A B C} (f : A -> B -> C) (l1 : list A) (l2 : list B)
    (i : nat) (da : A) (db : B) (dc : C) :
  (i < length l1)%nat -> length l1 = length l2 ->
  nth i (map2 f l1 l2) dc = f (nth i l1 da) (nth i l2 db).
Proof.
  revert l2 i. induction l1 as [| a l1 IH]; intros [| b l2] i Hi Hlen;
    cbn in *; try lia.
  destruct i as [| i]; [reflexivity |]. apply IH; lia.
Qed.

Lemma pixel_matrix_add (h w : nat) (a b : list (list Z)) (y x : Z) :
  has_shape h w a -> has_shape h w b ->
  0 <= y < Z.of_nat h -> 0 <= x < Z.of_nat w ->
  pixel (map2 (map2 Z.add) a b) y x = pixel a y x + pixel b y x.
Proof.
  intros [La Fa] [Lb Fb] Hy Hx. unfold pixel.
  rewrite (nth_map2 _ a b _ [] [] []) by lia.
  rewrite Forall_forall in Fa, Fb.
  assert (length (nth (Z.to_nat y) a []) = w) by (apply Fa, nth_In; lia).
  assert (length (nth (Z.to_nat y) b []) = w) by (apply Fb, nth_In; lia).
  apply nth_map2; lia.
Qed.

Lemma pixel_fold_add (h w : nat) (cs : list (list (list Z))) (c : list (list Z))
    (y x : Z) :
  has_shape h w c -> Forall (has_shape h w) cs ->
  0 <= y < Z.of_nat h -> 0 <= x < Z.of_nat w ->
  pixel (fold_left (map2 (map2 Z.add)) cs c) y x
  = pixel c y x + sum_list (map (fun c' => pixel c' y x) cs).
Proof.
  revert c. induction cs as [| c' cs IH]; intros c Hc Hcs Hy Hx;
    cbn [fold_left map].
  - cbn. lia.
  - inversion Hcs as [| ? ? Hc' Hcs']; subst.
    destruct (matrix_add_shape h w c c' Hc Hc') as [Hs _].
    rewrite IH by assumption.
    rewrite (pixel_matrix_add h w) by assumption.
    rewrite sum_list_cons. lia.
Qed.

Lemma sum_list_nonzero {A} (f : A -> Z) (l : list A) :
  sum_list (map f l) <> 0 -> exists a, In a l /\ f a <> 0.
Proof.
  induction l as [| a l IH]; cbn [map]; [cbn; congruence |].
  rewrite sum_list_cons. intros H.
  destruct (Z.eq_dec (f a) 0) as [E | E].
  - destruct IH as (b & Hb & Hfb); [lia |]. exists b. split; [right |]; assumption.
  - exists a. split; [left; reflexivity | exact E].
Qed.

(** The pixels [random.choice] can draw. For a mask of rank two they are
    exactly the pixels of the mask that are not zero and not an ignored
    value. For a mask of rank three each of them has, in some channel that is
    not ignored, a value that is not zero and not ignored. *)
Theorem drawn_pixel_not_ignored (self : config) :
  (forall (px : list (list Z)) (y x : Z),
     In (y, x) (nonzero (flatten_channels (apply_ignores self (Mask2 px)))) <->
     0 <= y < Z.of_nat (length px) /\
     0 <= x < Z.of_nat (length (nth (Z.to_nat y) px [])) /\
     pixel px y x <> 0 /\
     (forall vs, ignore_values self = Some vs -> ~ In (pixel px y x) vs)) /\
  (forall (chs : list (list (list Z))) (h w : nat) (y x : Z),
     Forall (has_shape h w) chs ->
     In (y, x) (nonzero (flatten_channels (apply_ignores self (Mask3 chs)))) ->
     0 <= y < Z.of_nat h /\ 0 <= x < Z.of_nat w /\
     exists ch : nat,
       (ch < length chs)%nat /\
       (forall ignored, ignore_channels self = Some ignored ->
                        ~ In (Z.of_nat ch) ignored) /\
       pixel (nth ch chs []) y x <> 0 /\
       (forall vs, ignore_values self = Some vs ->
                   ~ In (pixel (nth ch chs []) y x) vs)).
Proof.
  split.
  - intros px y x. unfold apply_ignores.
    destruct (ignore_values self) as [vs |].
    + rewrite fold_zero_where_eq_2d. cbn [flatten_channels].
      rewrite nonzero_iff, length_map.
      split.
      * intros (Hy & Hx & Hpx).
        change (@nil Z) with (map (kept_value vs) []) in Hx.
        rewrite map_nth, length_map in Hx.
        rewrite pixel_map in Hpx by assumption.
        apply kept_value_nonzero in Hpx.
        repeat split; try tauto; try lia.
        intros vs' E. injection E as <-. tauto.
      * intros (Hy & Hx & Hpx & Hign).
        change (@nil Z) with (map (kept_value vs) []).
        rewrite map_nth, length_map, pixel_map by assumption.
        repeat split; try lia.
        apply kept_value_nonzero. split; [exact Hpx | apply Hign; reflexivity].
    + cbn [flatten_channels]. rewrite nonzero_iff.
      split.
      * intros (Hy & Hx & Hpx). repeat split; try tauto; try lia. discriminate.
      * intros (Hy & Hx & Hpx & _). tauto.
  - intros chs h w y x Hshape Hin.
    (* the channels after the ignored values are zeroed *)
    set (F := match ignore_values self with
              | Some vs => kept_value vs
              | None => fun p => p
              end).
    assert (E1 : match ignore_values self with
                 | Some vs => fold_left (fun mask v => zero_where_eq v mask) vs
                                (Mask3 chs)
                 | None => Mask3 chs
                 end = Mask3 (map (map (map F)) chs)).
    { unfold F. destruct (ignore_values self) as [vs |].
      - apply fold_zero_where_eq_3d.
      - f_equal. rewrite <- (map_id chs) at 1. apply map_ext. intros c.
        rewrite <- (map_id c) at 1. apply map_ext. intros row.
        rewrite <- (map_id row) at 1. reflexivity. }
    unfold apply_ignores in Hin. rewrite E1 in Hin.
    set (chs1 := map (map (map F)) chs) in *.
    set (chs2 := match ignore_channels self with
                 | Some ignored =>
                     map (fun ch => nth ch chs1 [])
                         (target_channels (length chs1) ignored)
                 | None => chs1
                 end).
    assert (E2 : match ignore_channels self with
                 | Some ignored =>
                     Mask3 (map (fun ch => nth ch chs1 [])
                                (target_channels (length chs1) ignored))
                 | None => Mask3 chs1
                 end = Mask3 chs2).
    { unfold chs2. destruct (ignore_channels self); reflexivity. }
    rewrite E2 in Hin. cbn [flatten_channels] in Hin.
    assert (Hlen1 : length chs1 = length chs) by (unfold chs1; apply length_map).
    assert (Hnth1 : forall ch, (ch < length chs)%nat ->
                      nth ch chs1 [] = map (map F) (nth ch chs [])).
    { intros ch Hch. unfold chs1.
      change (@nil (list Z)) with (map (map F) []) at 1. apply map_nth. }
    (* every channel kept is a zeroed channel of the mask that is not ignored *)
    assert (Hsrc : forall c', In c' chs2 ->
              exists ch, (ch < length chs)%nat /\
                (forall ignored, ignore_channels self = Some ignored ->
                                 ~ In (Z.of_nat ch) ignored) /\
                c' = map (map F) (nth ch chs [])).
    { intros c' Hc'. unfold chs2 in Hc'.
      destruct (ignore_channels self) as [ignored |].
      - apply in_map_iff in Hc'. destruct Hc' as (ch & <- & Hch).
        unfold target_channels in Hch. apply filter_In in Hch.
        destruct Hch as [Hseq Hnot]. apply in_seq in Hseq.
        exists ch. split; [lia |]. split; [| apply Hnth1; lia].
        intros ign E. injection E as <-. intros Hign.
        apply negb_true_iff in Hnot.
        assert (existsb (Z.eqb (Z.of_nat ch)) ignored = true); [| congruence].
        apply existsb_exists. exists (Z.of_nat ch).
        split; [exact Hign | apply Z.eqb_refl].
      - destruct (In_nth chs1 c' [] Hc') as (ch & Hch & <-).
        exists ch. split; [lia |]. split; [discriminate | apply Hnth1; lia]. }
    assert (Hshape2 : Forall (has_shape h w) chs2).
    { apply Forall_forall. intros c' Hc'.
      destruct (Hsrc c' Hc') as (ch & Hch & _ & ->).
      apply has_shape_map. rewrite Forall_forall in Hshape.
      apply Hshape, nth_In, Hch. }
    destruct chs2 as [| c cs] eqn:Echs2; [cbn in Hin; contradiction |].
    inversion Hshape2 as [| ? ? Hc Hcs]; subst.
    destruct (fold_matrix_add h w cs c Hc Hcs) as [[Hl Hr] _].
    cbn [sum_dim0] in Hin. apply in_nonzero in Hin.
    destruct Hin as (Hy & Hx & Hpx).
    rewrite Hl in Hy.
    assert (Hrow : length (nth (Z.to_nat y) (fold_left (map2 (map2 Z.add)) cs c) [])
                   = w).
    { rewrite Forall_forall in Hr. apply Hr, nth_In. lia. }
    rewrite Hrow in Hx.
    split; [exact Hy |]. split; [exact Hx |].
    rewrite (pixel_fold_add h w) in Hpx by assumption.
    assert (Hex : exists c', In c' (c :: cs) /\ pixel c' y x <> 0).
    { apply (sum_list_nonzero (fun c' => pixel c' y x)).
      cbn [map]. rewrite sum_list_cons. exact Hpx. }
    destruct Hex as (c' & Hc' & Hpc').
    destruct (Hsrc c' Hc') as (ch & Hch & Hnotign & ->).
    exists ch. split; [exact Hch |]. split; [exact Hnotign |].
    assert (Hsh : has_shape h w (nth ch chs [])).
    { rewrite Forall_forall in Hshape. apply Hshape, nth_In, Hch. }
    destruct Hsh as [Hlc Hrc].
    assert (Hrowc : length (nth (Z.to_nat y) (nth ch chs []) []) = w).
    { rewrite Forall_forall in Hrc. apply Hrc, nth_In. lia. }
    rewrite pixel_map in Hpc' by lia.
    unfold F in Hpc'. destruct (ignore_values self) as [vs |].
    + apply kept_value_nonzero in Hpc'. split; [tauto |].
      intros vs' E. injection E as <-. tauto.
    + split; [exact Hpc' | discriminate].
Qed.

End IgnoredPixels.

(** ** [RandomResizedCropTorch]: every crop lies in the image *)
Section ResizedCropBounds.
Import RandomResizedCropTorch.
Context {R : Randomness} {L : RandomnessLaws R}.
Variable sample_size : config -> Z -> M py_state (Z * Z).








End ResizedCropBounds.


(** ** [augmentations/utils.py]: channels *)
Section Channels.
Import Utils UtilsShapes.

Lemma numel_cons (c : nat) (rest : list nat) :
  numel (c :: rest) = (c * numel rest)%nat.
Proof. reflexivity. Qed.

(** [grayscale_to_rgb] and [rgb_image] by the number [c] of channels: more
    than three channels fail the assertion; three channels pass unchanged;
    fewer are tripled, so that the result, and the image [rgb_image(func)]
    hands to [func], has three channels exactly when [c] is 1 or 3 (two
    channels give six, none gives none). A tensor without dimensions raises
    in [size(0)]. *)
Theorem grayscale_to_rgb_channels {B} (func : Tensor -> B) (img : Tensor) :
  (shape img = [] ->
     grayscale_to_rgb img = inl DimensionError /\
     rgb_image func img = inl DimensionError) /\
  (forall (c : nat) (rest : list nat), shape img = c :: rest ->
     ((3 < c)%nat ->
        grayscale_to_rgb img = inl AssertionError /\
        rgb_image func img = inl AssertionError) /\
     ((c <= 3)%nat ->
        exists rgb : Tensor,
          grayscale_to_rgb img = inr rgb /\
          rgb_image func img = inr (func rgb) /\
          dtype_of rgb = dtype_of img /\
          shape rgb = (if (c =? 3)%nat then 3%nat else (3 * c)%nat) :: rest /\
          data rgb = (if (c =? 3)%nat then data img
                      else data img ++ data img ++ data img) /\
          (length (data img) = numel (shape img) ->
           length (data rgb) = numel (shape rgb)) /\
          (is_rgb_image rgb = inr true <-> c = 1%nat \/ c = 3%nat))).
Proof.
  split.
  - intros E. unfold rgb_image, grayscale_to_rgb, size0. rewrite E. auto.
  - intros c rest E. split.
    + intros Hc. unfold rgb_image, grayscale_to_rgb, size0. rewrite E.
      destruct (Nat.leb_spec c 3); [lia |]. auto.
    + intros Hc. unfold rgb_image, grayscale_to_rgb, size0. rewrite E.
      destruct (Nat.leb_spec c 3) as [_ | ?]; [| lia]. cbn [negb].
      destruct (Nat.eqb_spec c 3) as [E3 | E3].
      * exists img. rewrite E. subst c.
        split; [reflexivity |]. split; [reflexivity |].
        split; [reflexivity |]. split; [reflexivity |].
        split; [reflexivity |]. split; [auto |].
        unfold is_rgb_image, size0. rewrite E. split; auto.
      * unfold cat3. rewrite E. eexists. split; [reflexivity |].
        split; [reflexivity |]. cbn [dtype_of shape data].
        split; [reflexivity |].
        split; [f_equal; lia |]. split; [reflexivity |].
        split.
        -- intros Hl. rewrite !length_app, Hl, !numel_cons. lia.
        -- unfold is_rgb_image, size0. cbn [shape].
           destruct (Nat.eqb_spec (c + c + c) 3) as [E9 | E9].
           ++ split; [intros _; left; lia | reflexivity].
           ++ split; [discriminate |]. intros [-> | ->]; [lia | lia].
Qed.

End Channels.

(** ** [augmentations/utils.py]: value ranges *)
Section ValueRanges.
Import Utils UtilsShapes.

Lemma clamp_value_cases (lo hi v : Q) :
  (lo <= hi)%Q ->
  (v < lo /\ clamp_value lo hi v = lo)%Q \/
  (hi < v /\ clamp_value lo hi v = hi)%Q \/
  (lo <= v <= hi /\ clamp_value lo hi v = v)%Q.
Proof.
  intros Hlh. unfold clamp_value.
  destruct (Qltb v lo) eqn:E1.
  - apply Qltb_true in E1. left. split; [exact E1 |].
    destruct (Qltb hi lo) eqn:E2; [| reflexivity].
    apply Qltb_true in E2. lra.
  - apply Qltb_false in E1.
    destruct (Qltb hi v) eqn:E2.
    + apply Qltb_true in E2. right. left. auto.
    + apply Qltb_false in E2. right. right. auto.
Qed.

Lemma Qtrunc_range (v : Q) (n : Z) :
  (0 <= v <= inject_Z n)%Q -> 0 <= Qtrunc v <= n.
Proof.
  intros [H0 Hn]. unfold Qtrunc.
  destruct (Qle_bool 0 v) eqn:E.
  - split.
    + change 0 with (Qfloor (inject_Z 0)). apply Qfloor_resp_le. exact H0.
    + rewrite <- (Qfloor_Z n). apply Qfloor_resp_le. exact Hn.
  - apply Qle_bool_iff in H0. congruence.
Qed.

Lemma max_value_get (dt : dtype) :
  get MAX_VALUES_BY_DTYPE dt 1%Q = (if dtype_eqb dt uint8 then 255 else 1)%Q.
Proof. destruct dt; reflexivity. Qed.

(** What [clip] makes of one element. *)
Lemma clip_value (dt : dtype) (v : Q) :
  let maxval := (if dtype_eqb dt uint8 then 255 else 1)%Q in
  let r := cast_value dt (clamp_value 0 maxval v) in
  (0 <= r <= maxval)%Q /\
  (dt = uint8 -> is_uint8_value r) /\
  ((v < 0)%Q -> r = 0%Q) /\
  ((maxval < v)%Q -> r = maxval) /\
  ((0 <= v <= maxval)%Q -> (dt = uint8 -> exists z, v = inject_Z z) -> r = v).
Proof.
  intros maxval r.
  assert (Hmax : (0 <= maxval)%Q) by (unfold maxval; destruct dt; cbn; lra).
  destruct dt.
  - (* uint8 *)
    cbn in maxval. unfold r. cbn [cast_value].
    set (c := clamp_value 0 maxval v).
    assert (Hc : (0 <= c <= inject_Z 255)%Q).
    { change (inject_Z 255) with maxval. unfold c.
      destruct (clamp_value_cases 0 maxval v Hmax)
        as [[_ ->] | [[_ ->] | [H ->]]]; lra. }
    pose proof (Qtrunc_range c 255 Hc) as Ht.
    rewrite (Z.mod_small (Qtrunc c) 256) by lia.
    split.
    { unfold maxval. change 255%Q with (inject_Z 255). change 0%Q with (inject_Z 0).
      rewrite <- !Zle_Qle. lia. }
    split. { intros _. exists (Qtrunc c). split; [reflexivity | lia]. }
    unfold c.
    split.
    { intros Hv. destruct (clamp_value_cases 0 maxval v Hmax)
        as [[_ ->] | [[H _] | [H _]]]; [reflexivity | lra | lra]. }
    split.
    { intros Hv. destruct (clamp_value_cases 0 maxval v Hmax)
        as [[H _] | [[_ ->] | [H _]]]; [lra | reflexivity | lra]. }
    intros Hv Hz. destruct (Hz eq_refl) as [z ->].
    destruct (clamp_value_cases 0 maxval (inject_Z z) Hmax)
      as [[H _] | [[H _] | [_ ->]]]; [lra | lra |].
    rewrite Qtrunc_Z. reflexivity.
  - cbn in maxval. unfold r. cbn [cast_value].
    destruct (clamp_value_cases 0 maxval v Hmax)
      as [[H ->] | [[H ->] | [H ->]]];
      (split; [lra |]); (split; [discriminate |]);
      (split; [intros; try reflexivity; lra |]);
      (split; [intros; try reflexivity; lra |]); intros; try reflexivity; lra.
  - cbn in maxval. unfold r. cbn [cast_value].
    destruct (clamp_value_cases 0 maxval v Hmax)
      as [[H ->] | [[H ->] | [H ->]]];
      (split; [lra |]); (split; [discriminate |]);
      (split; [intros; try reflexivity; lra |]);
      (split; [intros; try reflexivity; lra |]); intros; try reflexivity; lra.
Qed.

(** Whatever [func] returns, [clipped(func)] returns a tensor of the dtype of
    the input image and of the shape of [func]'s result whose elements lie in
    [[0, maxval]], where [maxval] is 255 for a [uint8] image and 1 for a float
    one: an element below 0 becomes 0, one above [maxval] becomes [maxval],
    and one in range is kept (for [uint8], when it is a whole number). *)
Theorem clipped_within_range (func : Tensor -> Tensor) (img : Tensor) :
  let res := clipped func img in
  let maxval := (if dtype_eqb (dtype_of img) uint8 then 255 else 1)%Q in
  dtype_of res = dtype_of img /\
  shape res = shape (func img) /\
  Forall2
    (fun v r =>
       (0 <= r <= maxval)%Q /\
       (dtype_of img = uint8 -> is_uint8_value r) /\
       ((v < 0)%Q -> r = 0%Q) /\
       ((maxval < v)%Q -> r = maxval) /\
       ((0 <= v <= maxval)%Q ->
        (dtype_of img = uint8 -> exists z, v = inject_Z z) -> r = v))
    (data (func img)) (data res).
Proof.
  intros res maxval. unfold res, clipped, clip.
  rewrite max_value_get. fold maxval.
  split; [reflexivity |]. split; [reflexivity |].
  cbn [to clamp pointwise data]. rewrite map_map.
  induction (data (func img)) as [| v l IH]; cbn [map]; constructor.
  - apply clip_value.
  - exact IH.
Qed.



End ValueRanges.


(** ** [augmentations/utils.py]: shapes *)
Section Shapes.
Import Utils UtilsShapes.






End Shapes.

(** ** [utils/gpu_benchmark.py]: the table of results *)
Section Table.
Import Ascii String GpuBenchmark.
Local Open Scope string_scope.

Lemma string_append_assoc (a b c : string) : (a ++ b) ++ c = a ++ (b ++ c).
Proof.
  induction a as [| ch a IH]; cbn; [reflexivity |]. rewrite IH. reflexivity.
Qed.

Lemma string_append_nil_r (a : string) : a ++ EmptyString = a.
Proof.
  induction a as [| ch a IH]; cbn; [reflexivity |]. rewrite IH. reflexivity.
Qed.

Lemma len_append (a b : string) : len (a ++ b) = (len a + len b)%Z.
Proof.
  unfold len. induction a as [| ch a IH]; cbn [append String.length].
  - lia.
  - rewrite !Nat2Z.inj_succ. lia.
Qed.

Lemma len_nonneg (a : string) : (0 <= len a)%Z.
Proof. unfold len. lia. Qed.

Lemma concat_empty_cons (x : string) (l : list string) :
  concat EmptyString (x :: l) = x ++ concat EmptyString l.
Proof.
  destruct l as [| y l]; cbn [concat].
  - rewrite string_append_nil_r. reflexivity.
  - reflexivity.
Qed.

Lemma len_times (s : string) (k : Z) : len (times s k) = (len s * Z.max 0 k)%Z.
Proof.
  unfold times.
  replace (Z.max 0 k) with (Z.of_nat (Z.to_nat k)) by lia.
  induction (Z.to_nat k) as [| n IH].
  - cbn. lia.
  - change (repeat s (S n)) with (s :: repeat s n).
    rewrite concat_empty_cons, len_append, IH. lia.
Qed.

(** The width of a row: each cell takes three characters more than the
    longer of its value and its column width. *)
Lemma format_row_len (values : list string) (max_lengths : list Z) :
  len (_format_row values max_lengths)
  = (1 + fold_right (fun vl acc => 3 + Z.max (len (fst vl)) (snd vl) + acc) 0
                    (combine values max_lengths))%Z.
Proof.
  unfold _format_row. rewrite len_append. change (len "|") with 1%Z.
  set (step := fun (row : string) (vl : string * Z) =>
                 let '(value, length) := vl in
                 row ++ "| " ++ times " " (length - len value) ++ value ++ " ").
  assert (H : forall l acc,
            len (fold_left step l acc)
            = (len acc + fold_right
                 (fun vl a => 3 + Z.max (len (fst vl)) (snd vl) + a) 0 l)%Z).
  { induction l as [| [v w] l IH]; intros acc; cbn [fold_left fold_right].
    - lia.
    - rewrite IH. unfold step. rewrite !len_append, len_times.
      change (len "| ") with 2%Z. change (len " ") with 1%Z. cbn [fst snd].
      pose proof (len_nonneg v). lia. }
  rewrite H. change (len EmptyString) with 0%Z. lia.
Qed.

Lemma fold_max_is_max (l : list Z) (a : Z) :
  is_max (fold_left Z.max l a) (a :: l).
Proof.
  revert a. induction l as [| x l IH]; intros a; cbn [fold_left].
  - split; [left; reflexivity |]. constructor; [lia | constructor].
  - destruct (IH (Z.max a x)) as [Hin Hall]. split.
    + destruct Hin as [E | Hin].
      * destruct (Z.max_spec a x) as [[_ Em] | [_ Em]].
        -- right. left. congruence.
        -- left. congruence.
      * right. right. exact Hin.
    + inversion Hall as [| ? ? Hm Hl]; subst.
      constructor; [lia |]. constructor; [lia | exact Hl].
Qed.

Variable Shape : Type.
Variable str : Shape -> string.
Variable format_2f : Q -> string.

(** The loop of lines 37-44 in closed form. *)
Lemma columns_closed_form (results : list (result Shape)) (w0 w1 w2 : Z) :
  columns Shape str format_2f results [w0; w1; w2]
  = (map (fun r => str (shape Shape r)) results,
     map (fun r => format_2f (cpu_fps Shape r)) results,
     map (fun r => format_2f (gpu_fps Shape r)) results,
     [fold_left Z.max (map (fun r => len (str (shape Shape r))) results) w0;
      fold_left Z.max (map (fun r => len (format_2f (cpu_fps Shape r))) results) w1;
      fold_left Z.max (map (fun r => len (format_2f (gpu_fps Shape r))) results) w2]).
Proof.
  unfold columns.
  set (step := fun (st : list string * list string * list string * list Z)
                   (r : result Shape) => _).
  assert (H : forall l s0 c0 g0 a b c,
    fold_left step l (s0, c0, g0, [a; b; c])
    = ((s0 ++ map (fun r => str (shape Shape r)) l)%list,
       (c0 ++ map (fun r => format_2f (cpu_fps Shape r)) l)%list,
       (g0 ++ map (fun r => format_2f (gpu_fps Shape r)) l)%list,
       [fold_left Z.max (map (fun r => len (str (shape Shape r))) l) a;
        fold_left Z.max (map (fun r => len (format_2f (cpu_fps Shape r))) l) b;
        fold_left Z.max (map (fun r => len (format_2f (gpu_fps Shape r))) l) c])).
  { induction l as [| r l IH]; intros s0 c0 g0 a b c; cbn [fold_left map].
    - rewrite !app_nil_r. reflexivity.
    - unfold step at 2. rewrite !last_last. cbn [setitem nth].
      rewrite IH, <- !app_assoc. reflexivity. }
  apply (H results [] [] []).
Qed.

(** The loop of lines 49-50 appends one line for each result. *)
Lemma rows_appended (row : string -> string -> string -> string)
    (results : list (result Shape)) (text : string) :
  fold_left
    (fun results_string (values : string * (string * string)) =>
       let '(a, (b, c)) := values in
       results_string ++ row a b c ++ newline)
    (combine (map (fun r => str (shape Shape r)) results)
       (combine (map (fun r => format_2f (cpu_fps Shape r)) results)
                (map (fun r => format_2f (gpu_fps Shape r)) results)))
    text
  = text ++ unlines (map (fun r => row (str (shape Shape r))
                                       (format_2f (cpu_fps Shape r))
                                       (format_2f (gpu_fps Shape r))) results).
Proof.
  revert text. induction results as [| r l IH]; intros text;
    cbn [map combine fold_left unlines fold_right].
  - rewrite string_append_nil_r. reflexivity.
  - rewrite IH. fold (unlines (map (fun r => row (str (shape Shape r))
                                       (format_2f (cpu_fps Shape r))
                                       (format_2f (gpu_fps Shape r))) l)).
    rewrite !string_append_assoc. reflexivity.
Qed.

(** The table [results_to_pretty_string] prints: a header, a line of dashes
    and one line for each result, in the order of the results, each line
    ended by a newline. The width of a column is the largest length among
    its title and its entries, and all the lines have the same length, the
    three widths plus 10. *)
Theorem results_table_aligned (results : list (result Shape)) :
  exists w0 w1 w2 : Z,
    is_max w0 (5 :: map (fun r => len (str (shape Shape r))) results) /\
    is_max w1 (7 :: map (fun r => len (format_2f (cpu_fps Shape r))) results) /\
    is_max w2 (7 :: map (fun r => len (format_2f (gpu_fps Shape r))) results) /\
    let widths := [w0; w1; w2] in
    let rows :=
      _format_row ["Shape"; "CPU FPS"; "GPU FPS"] widths
      :: _format_row [times "-" w0; times "-" w1; times "-" w2] widths
      :: map (fun r => _format_row [str (shape Shape r);
                                    format_2f (cpu_fps Shape r);
                                    format_2f (gpu_fps Shape r)] widths)
             results in
    results_to_pretty_string Shape str format_2f results = unlines rows /\
    Forall (fun row => len row = (w0 + w1 + w2 + 10)%Z) rows.
Proof.
  set (w0 := fold_left Z.max (map (fun r => len (str (shape Shape r))) results) 5%Z).
  set (w1 := fold_left Z.max
               (map (fun r => len (format_2f (cpu_fps Shape r))) results) 7%Z).
  set (w2 := fold_left Z.max
               (map (fun r => len (format_2f (gpu_fps Shape r))) results) 7%Z).
  exists w0, w1, w2.
  pose proof (fold_max_is_max (map (fun r => len (str (shape Shape r))) results) 5)
    as H0.
  pose proof (fold_max_is_max
                (map (fun r => len (format_2f (cpu_fps Shape r))) results) 7) as H1.
  pose proof (fold_max_is_max
                (map (fun r => len (format_2f (gpu_fps Shape r))) results) 7) as H2.
  fold w0 in H0. fold w1 in H1. fold w2 in H2.
  split; [exact H0 |]. split; [exact H1 |]. split; [exact H2 |].
  intros widths rows. split.
  - unfold results_to_pretty_string.
    change (map len ["Shape"; "CPU FPS"; "GPU FPS"]) with [5; 7; 7]%Z.
    rewrite columns_closed_form. fold w0 w1 w2. fold widths.
    rewrite (rows_appended (fun a b c => _format_row [a; b; c] widths)).
    unfold rows. cbn [unlines fold_right map].
    rewrite !string_append_assoc. reflexivity.
  - destruct H0 as [_ H0], H1 as [_ H1], H2 as [_ H2].
    inversion H0 as [| ? ? H05 H0']; subst.
    inversion H1 as [| ? ? H17 H1']; subst.
    inversion H2 as [| ? ? H27 H2']; subst.
    unfold rows. constructor; [| constructor].
    + rewrite format_row_len. cbn [combine fold_right fst snd widths].
      change (len "Shape") with 5%Z. change (len "CPU FPS") with 7%Z.
      change (len "GPU FPS") with 7%Z. lia.
    + rewrite format_row_len. cbn [combine fold_right fst snd widths].
      rewrite !len_times. change (len "-") with 1%Z. lia.
    + apply Forall_forall. intros row Hrow. apply in_map_iff in Hrow.
      destruct Hrow as (r & <- & Hr).
      rewrite format_row_len. cbn [combine fold_right fst snd widths].
      rewrite Forall_forall in H0', H1', H2'.
      pose proof (H0' _ (in_map (fun r => len (str (shape Shape r))) _ _ Hr)).
      pose proof (H1' _ (in_map (fun r => len (format_2f (cpu_fps Shape r))) _ _ Hr)).
      pose proof (H2' _ (in_map (fun r => len (format_2f (gpu_fps Shape r))) _ _ Hr)).
      cbn beta in *. lia.
Qed.

End Table.

(** ** [utils/gpu_benchmark.py]: the random boxes *)
Section RandomBoxes.
Import GpuBenchmark.
Variable np_global : Type.
Variable np_randbelow : Z -> np_global -> Z * np_global.
Hypothesis np_randbelow_range :
  forall n g, 0 < n -> 0 <= fst (np_randbelow n g) < n.

Lemma np_randint_spec (low high : Z) (g : np_global) :
  low < high ->
  exists r g', np_randint np_global np_randbelow low high g = (inr r, g') /\
               low <= r < high.
Proof.
  intros H. unfold np_randint.
  destruct (Z.leb_spec high low) as [? | _]; [lia |].
  pose proof (np_randbelow_range (high - low) g ltac:(lia)) as Hr.
  destruct (np_randbelow (high - low) g) as [r g']. cbn [fst] in Hr.
  exists (low + r), g'. split; [reflexivity | lia].
Qed.

Lemma np_randint_raises (low high : Z) (g : np_global) :
  high <= low ->
  np_randint np_global np_randbelow low high g = (inl LowNotBelowHigh, g).
Proof.
  intros H. unfold np_randint.
  destruct (Z.leb_spec high low) as [_ | ?]; [reflexivity | lia].
Qed.

Lemma gen_bbox_valid (h w : Z) (g : np_global) :
  3 <= h -> 3 <= w ->
  exists bbox g', gen_bbox np_global np_randbelow h w g = (inr bbox, g') /\
                  valid_bbox h w bbox.
Proof.
  intros Hh Hw. unfold gen_bbox, gbind.
  destruct (np_randint_spec 0 (w - 2) g ltac:(lia)) as (x1 & g1 & -> & Hx1).
  destruct (np_randint_spec 0 (h - 2) g1 ltac:(lia)) as (y1 & g2 & -> & Hy1).
  destruct (np_randint_spec (x1 + 1) w g2 ltac:(lia)) as (x2 & g3 & -> & Hx2).
  destruct (np_randint_spec (y1 + 1) h g3 ltac:(lia)) as (y2 & g4 & -> & Hy2).
  destruct (np_randint_spec 0 100 g4 ltac:(lia)) as (c & g5 & -> & Hc).
  exists [x1; y1; x2; y2; c], g5. split; [reflexivity |].
  exists x1, y1, x2, y2, c. split; [reflexivity | lia].
Qed.

Lemma gen_bbox_raises (h w : Z) (g : np_global) :
  h < 3 \/ w < 3 ->
  exists g', gen_bbox np_global np_randbelow h w g = (inl LowNotBelowHigh, g').
Proof.
  intros H. unfold gen_bbox, gbind.
  destruct (Z.lt_ge_cases w 3) as [Hw | Hw].
  - rewrite np_randint_raises by lia. exists g. reflexivity.
  - destruct (np_randint_spec 0 (w - 2) g ltac:(lia)) as (x1 & g1 & -> & Hx1).
    rewrite np_randint_raises by lia. exists g1. reflexivity.
Qed.

Lemma gen_bboxes_valid (count : nat) (h w : Z) (g : np_global) :
  3 <= h -> 3 <= w ->
  exists bboxes g',
    gen_bboxes np_global np_randbelow count h w g = (inr bboxes, g') /\
    length bboxes = count /\ Forall (valid_bbox h w) bboxes.
Proof.
  intros Hh Hw. revert g. induction count as [| count IH]; intros g.
  - exists [], g. repeat split. constructor.
  - cbn [gen_bboxes]. unfold gbind.
    destruct (gen_bbox_valid h w g Hh Hw) as (b & g1 & -> & Hb).
    destruct (IH g1) as (bs & g2 & -> & Hl & Hbs).
    exists (b :: bs), g2. split; [reflexivity |].
    split; [cbn; lia | constructor; assumption].
Qed.

(** On an image at least 3 pixels high and wide [_gen_random_bboxes] returns
    between 1 and 99 boxes, each non-empty, inside the image and with a
    class below 100. On a smaller image it raises the [ValueError] of
    [np.random.randint], and on a shape of fewer than two entries the one of
    the unpacking. *)
Theorem gen_random_bboxes_valid (shape : list Z) (g : np_global) :
  (forall h w rest, shape = h :: w :: rest ->
     (3 <= h -> 3 <= w ->
      exists bboxes g',
        _gen_random_bboxes np_global np_randbelow shape g = (inr bboxes, g') /\
        (1 <= length bboxes <= 99)%nat /\
        Forall (valid_bbox h w) bboxes) /\
     (h < 3 \/ w < 3 ->
      exists g',
        _gen_random_bboxes np_global np_randbelow shape g
          = (inl LowNotBelowHigh, g'))) /\
  ((length shape < 2)%nat ->
   _gen_random_bboxes np_global np_randbelow shape g = (inl UnpackError, g)).
Proof.
  split.
  - intros h w rest ->. unfold _gen_random_bboxes. cbn [firstn]. unfold gbind.
    destruct (np_randint_spec 1 100 g ltac:(lia)) as (count & g1 & -> & Hc).
    split.
    + intros Hh Hw.
      destruct (gen_bboxes_valid (Z.to_nat count) h w g1 Hh Hw)
        as (bs & g2 & -> & Hl & Hbs).
      exists bs, g2. split; [reflexivity |]. split; [lia | exact Hbs].
    + intros Hsmall.
      destruct (Z.to_nat count) as [| k] eqn:Ek; [lia |].
      cbn [gen_bboxes]. unfold gbind.
      destruct (gen_bbox_raises h w g1 Hsmall) as (g2 & ->).
      exists g2. reflexivity.
  - intros Hl. unfold _gen_random_bboxes.
    destruct shape as [| h [| w rest]]; [reflexivity | reflexivity |].
    cbn in Hl. lia.
Qed.

End RandomBoxes.

Lemma gen_random_bboxes_valid_witness :
  let np_randbelow := fun (n g : Z) => ((lcg g / 65536) mod n, lcg g) in
  exists bboxes g',
    GpuBenchmark._gen_random_bboxes Z np_randbelow [10; 20; 3] 5
      = (inr bboxes, g') /\
    (1 <= length bboxes <= 99)%nat /\
    Forall (valid_bbox 10 20) bboxes.
Proof.
  intros np_randbelow.
  assert (Hlaw : forall n g, 0 < n -> 0 <= fst (np_randbelow n g) < n).
  { intros n g Hn. cbn. apply Z.mod_pos_bound. exact Hn. }
  exact (proj1 (proj1 (gen_random_bboxes_valid Z np_randbelow Hlaw [10; 20; 3] 5)
                  10 20 [3] eq_refl) ltac:(lia) ltac:(lia)).
Defined.

(** ** [utils/gpu_benchmark.py]: the iterations of each shape *)
Section Schedule.
Import GpuBenchmark.






End Schedule.

(** ** [RandomSizedBBoxSafeCropTorch]: the crop keeps the boxes *)
Section BBoxSafeCrop.
Import RandomSizedBBoxSafeCropTorch.
Context {R : Randomness} {L : RandomnessLaws R}.
Variable random : M py_state Q.
Hypothesis random_range :
  forall g, exists r g', random g = (inr r, g') /\ (0 <= r < 1)%Q.
Variable bbox : Type.
Variable union_of_bboxes : Z -> Z -> list bbox -> Q -> Q * Q * Q * Q.








End BBoxSafeCrop.



